(** * Escher tessellation lab

    A shallow embedding of the tile editor of [EscherLab]: the geometry
    helpers built on the [polygon-clipping] package, the tile mutation
    engine ([applyBoolean], [applyCutSlide], [resetTile], [setTileSize]),
    the draw-mode click handler with grid snapping, and the [useHistory]
    undo/redo hook with its JSON snapshots.

    JavaScript numbers are IEEE 754 binary64 values, so they are modelled
    by the primitive [float] type; arrays are lists, a point [[x, y]] is a
    pair, and the editor state object is a record. *)

From Stdlib Require Import String ZArith List Bool Lia.
From Stdlib Require Import Floats.
From Stdlib Require Uint63 QArith.
Import ListNotations.

Set Implicit Arguments.

(** ** JavaScript numbers *)

Section JsNumbers.
Local Open Scope float_scope.

(** The integer [n] as a number; exact for [|n| <= 2^53]. *)
Definition Z2float (n : Z) : float :=
  let a := of_uint63 (Uint63.of_Z (Z.abs n)) in
  if (n <? 0)%Z then - a else a.

(** [Math.round]: NaN, the infinities, the zeros and integral values are
    returned as they are; otherwise the result is [floor (x + 1/2)]
    computed exactly, ties going towards +infinity, and a zero result
    keeps the sign of [x]. *)
Definition Math_round (x : float) : float :=
  match Prim2SF x with
  | S754_finite s m e =>
      if (0 <=? e)%Z then x
      else
        let sm := if s then Z.neg m else Z.pos m in
        let n := ((2 * sm + 2 ^ (- e)) / 2 ^ (1 - e))%Z in
        if (n =? 0)%Z then (if s then neg_zero else zero) else Z2float n
  | _ => x
  end.

Definition is_neg_zero (x : float) : bool :=
  match classify x with NZero => true | _ => false end.

(** [Math.min] and [Math.max] of two arguments: NaN if either is NaN,
    and [-0] counts as smaller than [+0]. *)
Definition Math_min (a b : float) : float :=
  if is_nan a || is_nan b then nan
  else if a <? b then a
  else if b <? a then b
  else if is_neg_zero a then a else b.

Definition Math_max (a b : float) : float :=
  if is_nan a || is_nan b then nan
  else if a <? b then b
  else if b <? a then a
  else if is_neg_zero a then b else a.

(** [Math.hypot] of two arguments.  ECMAScript fixes the results on
    infinities, NaN and zeros and leaves the other cases to the engine, as
    an approximation of the square root of the sum of squares.  The
    engine followed here is V8 (Chrome, Node), step by step: the
    magnitudes are divided by the larger one, their squares are added
    with Kahan's compensated summation, and the square root of the sum is
    multiplied by the larger magnitude.  The result can differ in the last
    bit from the rounded formula [sqrt (x * x + y * y)]. *)
Definition Math_hypot (x y : float) : float :=
  let absX := abs x in
  let absY := abs y in
  let max := 0 in
  let max := if is_nan x then max else if max <? absX then absX else max in
  let max := if is_nan y then max else if max <? absY then absY else max in
  if max =? infinity then infinity
  else if is_nan x || is_nan y then nan
  else if max =? 0 then 0
  else
    let sum := 0 in
    let compensation := 0 in
    let n := absX / max in
    let summand := n * n - compensation in
    let preliminary := sum + summand in
    let compensation := (preliminary - sum) - summand in
    let sum := preliminary in
    let n := absY / max in
    let summand := n * n - compensation in
    let preliminary := sum + summand in
    let sum := preliminary in
    sqrt sum * max.

(** The number written [1e-6] in the source: the binary64 value nearest
    to one millionth. *)
Definition close_tolerance : float := 0x1.0c6f7a0b5ed8dp-20.

End JsNumbers.

(** ** Geometry helpers *)

(** A point [[x, y]], a ring of points, a polygon (outer ring first, then
    holes) and a multi-polygon, as [polygon-clipping] lays them out. *)
Definition Point : Type := (float * float)%type.
Definition Ring : Type := list Point.
Definition Polygon : Type := list Ring.
Definition MultiPolygon : Type := list Polygon.

Definition rectMultiPolygon (w h : float) : MultiPolygon :=
  [ [ [ (0, 0); (w, 0); (w, h); (0, h) ] ] ]%float.

Definition translateRing (ring : Ring) (dx dy : float) : Ring :=
  map (fun p => (fst p + dx, snd p + dy)%float) ring.
Definition translatePoly (poly : Polygon) (dx dy : float) : Polygon :=
  map (fun ring => translateRing ring dx dy) poly.
Definition translateMP (mp : MultiPolygon) (dx dy : float) : MultiPolygon :=
  map (fun poly => translatePoly poly dx dy) mp.

Definition withinBounds (x y w h : float) : bool :=
  ((0 <=? x) && (x <=? w) && (0 <=? y) && (y <=? h))%float.

Definition simplePolygonToMP (points : list Point) : MultiPolygon :=
  [ [ points ] ].

Definition distance (a b : Point) : float :=
  Math_hypot (fst a - fst b) (snd a - snd b).

(** Every point of every ring of every polygon of [mp] lies in
    [[0,w] x [0,h]]. *)
Definition contained (mp : MultiPolygon) (w h : float) : Prop :=
  forall poly ring p,
    In poly mp -> In ring poly -> In p ring ->
    withinBounds (fst p) (snd p) w h = true.

Definition containedb (mp : MultiPolygon) (w h : float) : bool :=
  forallb (forallb (forallb (fun p => withinBounds (fst p) (snd p) w h))) mp.

(** ** Calls that may throw *)

(** The outcome of evaluating a JavaScript expression: a value, or a
    thrown error (kept as its message). *)
Inductive Completion (A : Type) : Type :=
| Normal (a : A)
| Throw (msg : string).
Arguments Normal {A} a.
Arguments Throw {A} msg.

Definition ret {A} (a : A) : Completion A := Normal a.

Definition bind {A B} (c : Completion A) (k : A -> Completion B)
  : Completion B :=
  match c with
  | Normal a => k a
  | Throw msg => Throw msg
  end.

(** [try { body } catch (e) { handler e }] *)
Definition try_catch {A} (body : Completion A)
  (handler : string -> Completion A) : Completion A :=
  match body with
  | Normal a => Normal a
  | Throw msg => handler msg
  end.

Declare Scope js_scope.
Delimit Scope js_scope with js.
Notation "x <- c ;; k" := (bind c (fun x => k))
  (at level 61, c at next level, right associativity) : js_scope.
Local Open Scope js_scope.

Definition returns {A} (c : Completion A) : Prop := exists a, c = Normal a.

(** ** The polygon-clipping package

    [pc.union], [pc.difference] and [pc.intersection] are an external
    dependency.  Each takes two multi-polygons and, by its declared type,
    returns a multi-polygon (an array, hence never a falsy value) or
    throws. *)
Class PolygonClipping : Type := {
  pc_union : MultiPolygon -> MultiPolygon -> Completion MultiPolygon;
  pc_difference : MultiPolygon -> MultiPolygon -> Completion MultiPolygon;
  pc_intersection : MultiPolygon -> MultiPolygon -> Completion MultiPolygon
}.

Section GeometryKernel.
Context {pc : PolygonClipping}.

(** The [catch] branches also call [console.warn], which returns
    [undefined] and has no bearing on the value returned. *)
Definition intersectWithBounds (mp : MultiPolygon) (w h : float)
  : Completion MultiPolygon :=
  let bounds := rectMultiPolygon w h in
  try_catch
    (out <- pc_intersection mp bounds ;;
     if (length out =? 0)%nat then ret [] else ret out)
    (fun _ => ret mp).

Definition mpUnion (a b : MultiPolygon) (w h : float)
  : Completion MultiPolygon :=
  try_catch
    (u <- pc_union a b ;; intersectWithBounds u w h)
    (fun _ => ret a).

Definition mpDiff (a b : MultiPolygon) (w h : float)
  : Completion MultiPolygon :=
  try_catch
    (d <- pc_difference a b ;; intersectWithBounds d w h)
    (fun _ => ret a).

Definition mpIntersect (a b : MultiPolygon) (w h : float)
  : Completion MultiPolygon :=
  try_catch
    (i <- pc_intersection a b ;; intersectWithBounds i w h)
    (fun _ => ret a).

End GeometryKernel.

(** ** Editor state *)

Record Instance : Type := {
  id : string;
  x : float;
  y : float;
  rot : float
}.

Record EditorState : Type := {
  tileW : float;
  tileH : float;
  tileMP : MultiPolygon;
  draftShape : list Point;
  mode : string;
  snap : bool;
  gridSize : float;
  instances : list Instance
}.

Definition initial : EditorState := {|
  tileW := 240;
  tileH := 160;
  tileMP := rectMultiPolygon 240 160;
  draftShape := [];
  mode := "draw";
  snap := true;
  gridSize := 16;
  instances := []
|}.

(** ** Tile mutation engine: the updaters handed to the history [set] *)

Definition closeIfNeeded (pts : list Point) : list Point :=
  if (length pts <=? 2)%nat then pts
  else
    match pts with
    | [] => pts
    | first :: _ =>
        let last := List.last pts first in
        if (close_tolerance <? distance first last)%float
        then pts ++ [first]
        else pts
    end.

(** The object [{ ...s, tileMP: nextTile, draftShape: [] }]. *)
Definition withTile (s : EditorState) (nextTile : MultiPolygon)
  : EditorState :=
  {| tileW := tileW s; tileH := tileH s;
     tileMP := nextTile; draftShape := [];
     mode := mode s; snap := snap s; gridSize := gridSize s;
     instances := instances s |}.

Section TileMutation.
Context {pc : PolygonClipping}.

Definition applyBoolean (op : string) (s : EditorState)
  : Completion EditorState :=
  if (length (draftShape s) <? 3)%nat then ret s
  else
    let clean := closeIfNeeded (draftShape s) in
    let mp := simplePolygonToMP clean in
    let nextTile := tileMP s in
    nextTile <- (if (op =? "add")%string
                 then mpUnion (tileMP s) mp (tileW s) (tileH s)
                 else ret nextTile) ;;
    nextTile <- (if (op =? "sub")%string
                 then mpDiff (tileMP s) mp (tileW s) (tileH s)
                 else ret nextTile) ;;
    ret (withTile s nextTile).

Definition applyCutSlide (direction : string) (s : EditorState)
  : Completion EditorState :=
  if (length (draftShape s) <? 3)%nat then ret s
  else
    let clean := closeIfNeeded (draftShape s) in
    let cutMP := simplePolygonToMP clean in
    let w := tileW s in
    let h := tileH s in
    tmp <- mpDiff (tileMP s) cutMP w h ;;
    let moved := cutMP in
    let moved := if (direction =? "LR")%string
                 then translateMP cutMP w 0 else moved in
    let moved := if (direction =? "RL")%string
                 then translateMP cutMP (- w) 0 else moved in
    let moved := if (direction =? "TB")%string
                 then translateMP cutMP 0 h else moved in
    let moved := if (direction =? "BT")%string
                 then translateMP cutMP 0 (- h) else moved in
    tmp <- mpUnion tmp moved w h ;;
    ret (withTile s tmp).

Definition resetTile (s : EditorState) : EditorState :=
  withTile s (rectMultiPolygon (tileW s) (tileH s)).

Definition setTileSize (w h : float) (s : EditorState)
  : Completion EditorState :=
  clipped <- intersectWithBounds (tileMP s) w h ;;
  ret {| tileW := w; tileH := h;
         tileMP := clipped; draftShape := draftShape s;
         mode := mode s; snap := snap s; gridSize := gridSize s;
         instances := instances s |}.

End TileMutation.

(** ** Drawing and assembly handlers

    A handler reads [mode], [snap], [gridSize] and the tile size from the
    state of the render it was created in ([present]) and, unless it
    returns early, hands an updater to the history [set].  [None] stands
    for an early return: nothing is committed. *)

Definition snapPoint (snap : bool) (gridSize : float) (p : Point) : Point :=
  if negb snap then p
  else
    let '(x, y) := p in
    let sx := (Math_round (x / gridSize) * gridSize)%float in
    let sy := (Math_round (y / gridSize) * gridSize)%float in
    (sx, sy).

(** [local] is the click position in the coordinates of the editor's SVG
    element, as the browser's [matrixTransform] returns it; the element is
    mounted. *)
Definition onEditorClick (present : EditorState) (local : Point)
  : option (EditorState -> EditorState) :=
  if negb (mode present =? "draw")%string then None
  else
    let p := (Math_max 0 (Math_min (tileW present) (fst local)),
              Math_max 0 (Math_min (tileH present) (snd local))) in
    let p := snapPoint (snap present) (gridSize present) p in
    Some (fun s =>
            {| tileW := tileW s; tileH := tileH s; tileMP := tileMP s;
               draftShape := draftShape s ++ [p];
               mode := mode s; snap := snap s; gridSize := gridSize s;
               instances := instances s |}).

(** [newId] is the string [Math.random().toString(36).slice(2)]. *)
Definition addInstance (newId : string) (s : EditorState) : EditorState :=
  {| tileW := tileW s; tileH := tileH s; tileMP := tileMP s;
     draftShape := draftShape s;
     mode := mode s; snap := snap s; gridSize := gridSize s;
     instances := instances s
                  ++ [ {| id := newId; x := 20; y := 20; rot := 0 |} ] |}.

(** The updater of [onAssemblyMouseMove] while the instance [dragId] is
    dragged with pointer offset [off] and the pointer is at [local]. *)
Definition onAssemblyMouseMove (dragId : string) (off local : Point)
  (s : EditorState) : EditorState :=
  let insts :=
    map (fun i =>
           if negb (id i =? dragId)%string then i
           else
             let nx := (fst local - fst off)%float in
             let ny := (snd local - snd off)%float in
             let nx := if snap s
                       then (Math_round (nx / tileW s) * tileW s)%float
                       else nx in
             let ny := if snap s
                       then (Math_round (ny / tileH s) * tileH s)%float
                       else ny in
             {| id := id i; x := nx; y := ny; rot := rot i |})
        (instances s) in
  {| tileW := tileW s; tileH := tileH s; tileMP := tileMP s;
     draftShape := draftShape s;
     mode := mode s; snap := snap s; gridSize := gridSize s;
     instances := insts |}.

(** ** Undo/redo history

    [useHistory] keeps the present state in a React state cell and two
    stacks of snapshots in refs; a snapshot is [JSON.stringify] of a
    state.  The hook is generic in the state, so the model is generic in
    the state type and in the serialiser.

    The hook body runs at every render and computes [canUndo] and
    [canRedo] from the refs there; [set], [undo] and [redo] are closures
    of that render and see the two flags as the render computed them,
    while the refs are read and written live.  React renders the component
    again after a handler has called [setPresent] with another object than
    the present state, and skips the render when it is given the present
    state itself ([Object.is]).  A render that is due is taken to
    complete before the next handler call. *)

Section UseHistory.
Variables State Snapshot : Type.
Variable stringify : State -> Snapshot.
Variable parse : Snapshot -> State.

(** What a handler passes to [setPresent]: the object that is the present
    state, or another object. *)
Inductive Next : Type :=
| SameObject
| NewObject (v : State).

(** The argument of [set]: a function of the present state, or a
    state. *)
Inductive Updater : Type :=
| UpdaterFn (f : State -> Next)
| UpdaterValue (next : Next).

(** The state cell, the two refs, and the flags of the latest render. *)
Record History : Type := {
  present : State;
  pastRef : list Snapshot;
  futureRef : list Snapshot;
  canUndo : bool;
  canRedo : bool
}.

(** A render with the given state cell and refs. *)
Definition render (state : State) (past future : list Snapshot) : History :=
  {| present := state; pastRef := past; futureRef := future;
     canUndo := (0 <? length past)%nat;
     canRedo := (0 <? length future)%nat |}.

Definition useHistory (initialState : State) : History :=
  render initialState [] [].

(** The flags are those a render would compute from the refs now. *)
Definition synced (hist : History) : Prop :=
  hist = render (present hist) (pastRef hist) (futureRef hist).

(** The hook after a handler that left the refs at [past] and [future]
    and caused no render. *)
Definition withRefs (hist : History) (past future : list Snapshot)
  : History :=
  {| present := present hist; pastRef := past; futureRef := future;
     canUndo := canUndo hist; canRedo := canRedo hist |}.

(** The hook after a handler that left the refs at [past] and [future]
    and called [setPresent next]. *)
Definition setPresent (next : Next) (hist : History)
  (past future : list Snapshot) : History :=
  match next with
  | SameObject => withRefs hist past future
  | NewObject v => render v past future
  end.

(** [Array.prototype.push] and [pop] work at the end of the array. *)
Definition push {A} (stack : list A) (a : A) : list A := stack ++ [a].

Fixpoint pop {A} (stack : list A) : option (list A * A) :=
  match stack with
  | [] => None
  | a :: rest =>
      match pop rest with
      | None => Some ([], a)
      | Some (rest', top) => Some (a :: rest', top)
      end
  end.

Definition set (updater : Updater) (hist : History) : History :=
  let past := push (pastRef hist) (stringify (present hist)) in
  let next := match updater with
              | UpdaterFn f => f (present hist)
              | UpdaterValue next => next
              end in
  setPresent next hist past [].

(** A handler call leaves a hook and either returns or throws. *)
Definition Outcome : Type := (History * Completion unit)%type.

(** [JSON.parse] returns a new object.  When the stack is empty [pop]
    returns [undefined]: the other stack is pushed to all the same, and
    [JSON.parse(undefined)] throws. *)
Definition undo (hist : History) : Outcome :=
  if negb (canUndo hist) then (hist, Normal tt)
  else
    let future := push (futureRef hist) (stringify (present hist)) in
    match pop (pastRef hist) with
    | Some (past, prev) => (render (parse prev) past future, Normal tt)
    | None =>
        (withRefs hist (pastRef hist) future,
         Throw "SyntaxError: undefined is not valid JSON")
    end.

Definition redo (hist : History) : Outcome :=
  if negb (canRedo hist) then (hist, Normal tt)
  else
    let past := push (pastRef hist) (stringify (present hist)) in
    match pop (futureRef hist) with
    | Some (future, next) => (render (parse next) past future, Normal tt)
    | None =>
        (withRefs hist past (futureRef hist),
         Throw "SyntaxError: undefined is not valid JSON")
    end.

Definition reset (state : State) (hist : History) : History :=
  render state [] [].

(** A sequence of commits, oldest first. *)
Definition commits (updaters : list Updater) (hist : History) : History :=
  fold_left (fun h u => set u h) updaters hist.

(** One handler call after another; a throw ends the sequence. *)
Definition andThen (first second : History -> Outcome) (hist : History)
  : Outcome :=
  match first hist with
  | (hist', Normal _) => second hist'
  | (hist', Throw msg) => (hist', Throw msg)
  end.

Fixpoint times (n : nat) (handler : History -> Outcome) (hist : History)
  : Outcome :=
  match n with
  | O => (hist, Normal tt)
  | S n => andThen handler (times n handler) hist
  end.

End UseHistory.

Arguments SameObject {State}.
Arguments NewObject {State} v.
Arguments UpdaterFn {State} f.
Arguments UpdaterValue {State} next.
Arguments present {State Snapshot} _.
Arguments pastRef {State Snapshot} _.
Arguments futureRef {State Snapshot} _.
Arguments canUndo {State Snapshot} _.
Arguments canRedo {State Snapshot} _.
Arguments render {State} Snapshot state past future.
Arguments useHistory {State} Snapshot initialState.
Arguments reset {State Snapshot} state hist.
Arguments synced {State Snapshot} hist.

(** ** JSON snapshots

    The values an editor state is built from: null, booleans, numbers,
    strings, arrays and plain objects (own properties in enumeration
    order). *)
#[warnings="-register-all"] Inductive JsValue : Type :=
| JsNull
| JsBoolean (b : bool)
| JsNumber (n : float)
| JsString (s : string)
| JsArray (items : list JsValue)
| JsObject (props : list (string * JsValue)).

(** A JSON document.  [JSON.stringify] writes a finite number with the
    shortest digits that read back as the same binary64 value, so a number
    node carries that value; the text itself is not modelled. *)
#[warnings="-register-all"] Inductive Json : Type :=
| JNull
| JBool (b : bool)
| JNum (n : float)
| JStr (s : string)
| JArr (items : list Json)
| JObj (members : list (string * Json)).

(** Number serialisation: NaN and the infinities are written [null], and
    [-0] is written [0]. *)
Definition stringify_number (n : float) : Json :=
  if is_finite n then JNum (if is_neg_zero n then zero else n) else JNull.

Fixpoint JSON_stringify (v : JsValue) : Json :=
  match v with
  | JsNull => JNull
  | JsBoolean b => JBool b
  | JsNumber n => stringify_number n
  | JsString s => JStr s
  | JsArray items => JArr (map JSON_stringify items)
  | JsObject props =>
      JObj (map (fun kv => (fst kv, JSON_stringify (snd kv))) props)
  end.

Fixpoint JSON_parse (j : Json) : JsValue :=
  match j with
  | JNull => JsNull
  | JBool b => JsBoolean b
  | JNum n => JsNumber n
  | JStr s => JsString s
  | JArr items => JsArray (map JSON_parse items)
  | JObj members =>
      JsObject (map (fun kv => (fst kv, JSON_parse (snd kv))) members)
  end.

(** The values that survive a JSON round trip: every number is finite and
    is not [-0]. *)
Definition json_safe_number (n : float) : bool :=
  is_finite n && negb (is_neg_zero n).

Fixpoint json_safe (v : JsValue) : bool :=
  match v with
  | JsNumber n => json_safe_number n
  | JsArray items => forallb json_safe items
  | JsObject props => forallb (fun kv => json_safe (snd kv)) props
  | _ => true
  end.

(** The editor state as the object literal the component builds. *)
Definition Point_toJs (p : Point) : JsValue :=
  JsArray [JsNumber (fst p); JsNumber (snd p)].
Definition Ring_toJs (r : Ring) : JsValue := JsArray (map Point_toJs r).
Definition Polygon_toJs (p : Polygon) : JsValue := JsArray (map Ring_toJs p).
Definition MultiPolygon_toJs (mp : MultiPolygon) : JsValue :=
  JsArray (map Polygon_toJs mp).
Definition Instance_toJs (i : Instance) : JsValue :=
  JsObject [ ("id", JsString (id i)); ("x", JsNumber (x i));
             ("y", JsNumber (y i)); ("rot", JsNumber (rot i)) ]%string.
Definition EditorState_toJs (s : EditorState) : JsValue :=
  JsObject [ ("tileW", JsNumber (tileW s));
             ("tileH", JsNumber (tileH s));
             ("tileMP", MultiPolygon_toJs (tileMP s));
             ("draftShape", JsArray (map Point_toJs (draftShape s)));
             ("mode", JsString (mode s));
             ("snap", JsBoolean (snap s));
             ("gridSize", JsNumber (gridSize s));
             ("instances", JsArray (map Instance_toJs (instances s))) ]%string.

(** The hook as the editor uses it. *)
Definition EditorHistory : Type := History JsValue Json.
Definition hset : Updater JsValue -> EditorHistory -> EditorHistory :=
  set JSON_stringify.
Definition hundo : EditorHistory -> Outcome JsValue Json :=
  undo JSON_stringify JSON_parse.
Definition hredo : EditorHistory -> Outcome JsValue Json :=
  redo JSON_stringify JSON_parse.
Definition hcommits
  : list (Updater JsValue) -> EditorHistory -> EditorHistory :=
  commits JSON_stringify.

(** Committing an editor state built anew. *)
Definition commitState (s : EditorState) : Updater JsValue :=
  UpdaterFn (fun _ => NewObject (EditorState_toJs s)).

(** Committing with an updater that returns the state it is given, as
    the updaters of [applyBoolean] and [applyCutSlide] do on a draft of
    fewer than three points, and the updater of [onAssemblyMouseDown]
    always. *)
Definition commitUnchanged : Updater JsValue :=
  UpdaterFn (fun _ => SameObject).

(** ** A small clipper

    A stand-in for the package, to run the editor on examples.  It reads a
    clip shape made of one ring of four vertices as the box spanned by the
    first and the third vertex; [intersection] keeps and [difference]
    drops the polygons whose vertices all lie in that box, and [union]
    joins the polygon lists.  Any other clip shape makes [intersection]
    and [difference] throw.  With the tile rectangle as clip shape and
    polygons wholly inside or wholly outside of it, [intersection] and
    [difference] return what the package returns. *)
Module BoxClipper.

Definition inBox (lo hi : Point) (p : Point) : bool :=
  ((fst lo <=? fst p) && (fst p <=? fst hi)
   && (snd lo <=? snd p) && (snd p <=? snd hi))%float.

Definition polyInBox (lo hi : Point) (poly : Polygon) : bool :=
  forallb (forallb (inBox lo hi)) poly.

Definition boxOf (clip : MultiPolygon) : option (Point * Point) :=
  match clip with
  | [ [ [ lo; _; hi; _ ] ] ] => Some (lo, hi)
  | _ => None
  end.

Definition intersection (a clip : MultiPolygon) : Completion MultiPolygon :=
  match boxOf clip with
  | Some (lo, hi) => Normal (filter (polyInBox lo hi) a)
  | None => Throw "unsupported clip shape"
  end.

Definition difference (a clip : MultiPolygon) : Completion MultiPolygon :=
  match boxOf clip with
  | Some (lo, hi) => Normal (filter (fun p => negb (polyInBox lo hi p)) a)
  | None => Throw "unsupported clip shape"
  end.

Definition union (a b : MultiPolygon) : Completion MultiPolygon :=
  Normal (a ++ b).

Definition instance : PolygonClipping := {|
  pc_union := union;
  pc_difference := difference;
  pc_intersection := intersection
|}.

End BoxClipper.

(** The box clipper with the package's failure on a clip shape that has
    a NaN coordinate: there [intersection] and [difference] throw, as
    [polygon-clipping] does when it is handed the tile rectangle of a NaN
    width or height.  On every other input this is the box clipper. *)
Module NanClipper.

Definition hasNaN (mp : MultiPolygon) : bool :=
  existsb (existsb (existsb (fun p => is_nan (fst p) || is_nan (snd p)))) mp.

Definition intersection (a clip : MultiPolygon) : Completion MultiPolygon :=
  if hasNaN clip then Throw "polygon-clipping: NaN coordinate"
  else BoxClipper.intersection a clip.

Definition difference (a clip : MultiPolygon) : Completion MultiPolygon :=
  if hasNaN clip then Throw "polygon-clipping: NaN coordinate"
  else BoxClipper.difference a clip.

Definition instance : PolygonClipping := {|
  pc_union := BoxClipper.union;
  pc_difference := difference;
  pc_intersection := intersection
|}.

End NanClipper.

(** ** Statements about the tile mutation engine *)

(** The operations of the tile mutation engine. *)
Inductive TileOp : Type :=
| OpApplyBoolean (op : string)
| OpApplyCutSlide (direction : string)
| OpResetTile
| OpSetTileSize (w h : float).

Definition runTileOp {pc : PolygonClipping} (o : TileOp) (s : EditorState)
  : Completion EditorState :=
  match o with
  | OpApplyBoolean op => applyBoolean op s
  | OpApplyCutSlide direction => applyCutSlide direction s
  | OpResetTile => ret (resetTile s)
  | OpSetTileSize w h => setTileSize w h s
  end.

(** The containment invariant of the tile shape. *)
Definition tileInvariant (s : EditorState) : Prop :=
  contained (tileMP s) (tileW s) (tileH s).

(** Everything but the tile shape and the draft polygon agrees. *)
Definition sameFrame (s s' : EditorState) : Prop :=
  tileW s' = tileW s /\ tileH s' = tileH s /\ mode s' = mode s /\
  snap s' = snap s /\ gridSize s' = gridSize s /\
  instances s' = instances s.

(** ** The operations as the specification words them

    The geometry kernel of the specification, written from its text and
    without the helpers of the source: plain functions that always return
    a shape. *)
Module Spec.
Section Kernel.
Context {pc : PolygonClipping}.

(** [clipToBounds]: the intersection of the shape with the rectangle; an
    empty shape if the intersection produced nothing, the shape itself if
    the intersection raised an error. *)
Definition clipToBounds (shape : MultiPolygon) (w h : float)
  : MultiPolygon :=
  let rectangle := [ [ [ (0, 0); (w, 0); (w, h); (0, h) ] ] ]%float in
  match pc_intersection shape rectangle with
  | Normal [] => []
  | Normal out => out
  | Throw _ => shape
  end.

(** [union] and [difference]: the named operation, then [clipToBounds];
    the first shape, unchanged, if the operation raised an error. *)
Definition union (a b : MultiPolygon) (w h : float) : MultiPolygon :=
  match pc_union a b with
  | Normal u => clipToBounds u w h
  | Throw _ => a
  end.

Definition difference (a b : MultiPolygon) (w h : float) : MultiPolygon :=
  match pc_difference a b with
  | Normal d => clipToBounds d w h
  | Throw _ => a
  end.

End Kernel.

(** [translate]: [(dx, dy)] added to every point of every ring of every
    polygon. *)
Definition translate (shape : MultiPolygon) (dx dy : float) : MultiPolygon :=
  map (map (map (fun p : Point => let (x, y) := p in (x + dx, y + dy)%float)))
    shape.

(** [pointsToShape]: one polygon of one ring, without holes. *)
Definition pointsToShape (points : list Point) : MultiPolygon :=
  [ [ points ] ].

End Spec.

(** Cut and slide as the specification words it: (a) close the draft into
    a cut shape; (b) take the difference of the tile and the cut; (c)
    translate the cut shape itself by [(dx, dy)]; (d) take the union of
    the difference with the translated cut, clipped to the tile bounds.
    The state returned has that union as its tile, no draft, and the other
    fields of [s]. *)
Definition cutSlideSpec {pc : PolygonClipping} (dx dy : float)
  (s : EditorState) : EditorState :=
  let cut := Spec.pointsToShape (closeIfNeeded (draftShape s)) in
  let remainder := Spec.difference (tileMP s) cut (tileW s) (tileH s) in
  let slid := Spec.translate cut dx dy in
  {| tileW := tileW s; tileH := tileH s;
     tileMP := Spec.union remainder slid (tileW s) (tileH s);
     draftShape := [];
     mode := mode s; snap := snap s; gridSize := gridSize s;
     instances := instances s |}.

(** ** Exact distances

    A finite number is a rational, [m * 2^e]; the square of the Euclidean
    distance of two points with finite coordinates is computed on these
    rationals, without rounding. *)
Definition exactValue (x : float) : option QArith_base.Q :=
  match Prim2SF x with
  | S754_zero _ => Some (QArith_base.Qmake 0 1)
  | S754_finite s m e =>
      let sm := if s then Z.neg m else Z.pos m in
      Some (QArith_base.Qmult (QArith_base.inject_Z sm)
              (QArith_base.Qpower (QArith_base.Qmake 2 1) e))
  | _ => None
  end.

Definition squaredDistance (a b : Point) : option QArith_base.Q :=
  match exactValue (fst a), exactValue (fst b),
        exactValue (snd a), exactValue (snd b) with
  | Some ax, Some bx, Some ay, Some by_ =>
      let dx := QArith_base.Qminus ax bx in
      let dy := QArith_base.Qminus ay by_ in
      Some (QArith_base.Qplus (QArith_base.Qmult dx dx)
              (QArith_base.Qmult dy dy))
  | _, _, _, _ => None
  end.

(** The two points are more than one millionth apart: the square of their
    distance exceeds [10^-12]. *)
Definition fartherThanTolerance (a b : Point) : Prop :=
  exists d, squaredDistance a b = Some d /\
            QArith_base.Qlt (QArith_base.Qmake 1 (10 ^ 12)) d.

(** ** Sample states *)

(** The initial state with a draft drawn in it. *)
Definition withDraft (s : EditorState) (draft : list Point) : EditorState :=
  {| tileW := tileW s; tileH := tileH s; tileMP := tileMP s;
     draftShape := draft;
     mode := mode s; snap := snap s; gridSize := gridSize s;
     instances := instances s |}.

Definition notchDraft : list Point := [ (0, 60); (20, 40); (20, 120) ]%float.

Definition notchState : EditorState := withDraft initial notchDraft.

(** A shape with one triangle inside the initial tile and one outside. *)
Definition twoTriangles : MultiPolygon :=
  [ [ [ (10, 10); (20, 10); (20, 20) ] ];
    [ [ (300, 10); (320, 10); (320, 20) ] ] ]%float.

(** One tile added to the assembly, grabbed 100 units right of its origin
    and dragged, with snapping on, until the pointer is at [x = 50]: the
    new origin [-50] snaps to [Math.round(-50 / 240) * 240]. *)
Definition draggedState : EditorState :=
  onAssemblyMouseMove "k3x9" (100, 100)%float (50, 120)%float
    (addInstance "k3x9" initial).

(** A draft whose last point is a hair more than one millionth away from
    its first point, the origin. *)
Definition nearlyClosedDraft : list Point :=
  [ (0, 0); (10, 0); (10, 10);
    (0x1.8p-29, 0x1.0c6f35613610ap-20) ]%float.

(** A state with an empty tile shape and a NaN tile width. *)
Definition nanWidthState : EditorState :=
  {| tileW := nan; tileH := 160; tileMP := [];
     draftShape := []; mode := "draw"; snap := true; gridSize := 16;
     instances := [] |}.

(** A state whose grid size is NaN. *)
Definition nanGridState : EditorState :=
  {| tileW := 240; tileH := 160; tileMP := rectMultiPolygon 240 160;
     draftShape := []; mode := "draw"; snap := true; gridSize := nan;
     instances := [] |}.

(** ** Toolbar, keyboard and size inputs *)

(** [applyModeAction]: what the Apply button issues in each mode; [None]
    when it returns without calling a handler. *)
Definition applyModeAction (mode : string) : option TileOp :=
  if (mode =? "booleanAdd")%string then Some (OpApplyBoolean "add")
  else if (mode =? "booleanSub")%string then Some (OpApplyBoolean "sub")
  else if (mode =? "cutSlideLR")%string then Some (OpApplyCutSlide "LR")
  else if (mode =? "cutSlideRL")%string then Some (OpApplyCutSlide "RL")
  else if (mode =? "cutSlideTB")%string then Some (OpApplyCutSlide "TB")
  else if (mode =? "cutSlideBT")%string then Some (OpApplyCutSlide "BT")
  else None.

(** The Enter branch of the key handler: in draw mode with three or more
    draft points it commits the draft with its first point appended. *)
Definition onEnterKey (present : EditorState)
  : option (EditorState -> EditorState) :=
  if (mode present =? "draw")%string
     && (3 <=? length (draftShape present))%nat
  then
    Some (fun s =>
            match draftShape s with
            | [] => s (* not reached: the draft has three points *)
            | first :: _ =>
                {| tileW := tileW s; tileH := tileH s; tileMP := tileMP s;
                   draftShape := draftShape s ++ [first];
                   mode := mode s; snap := snap s; gridSize := gridSize s;
                   instances := instances s |}
            end)
  else None.

(** A key event, as far as the handler reads it. *)
Record KeyEvent : Type := {
  key : string;
  ctrlKey : bool;
  metaKey : bool;
  shiftKey : bool
}.

Inductive KeyAction : Type :=
| KeyUndo
| KeyRedo
| KeyReset
| KeyCloseDraft.

(** [String.prototype.toLowerCase] on the letters A to Z; every other
    character of a key name is left as it is. *)
Definition lowerAscii (c : Ascii.ascii) : Ascii.ascii :=
  let n := Ascii.nat_of_ascii c in
  if ((65 <=? n) && (n <=? 90))%nat then Ascii.ascii_of_nat (n + 32) else c.

Fixpoint toLowerCase (str : string) : string :=
  match str with
  | EmptyString => EmptyString
  | String c rest => String (lowerAscii c) (toLowerCase rest)
  end.

(** The key handler: the calls it makes for one key event, in order. *)
Definition onKey (present : EditorState) (e : KeyEvent) : list KeyAction :=
  (if (ctrlKey e || metaKey e) && (toLowerCase (key e) =? "z")%string
   then [ if shiftKey e then KeyRedo else KeyUndo ] else [])
  ++ (if (ctrlKey e || metaKey e) && (toLowerCase (key e) =? "y")%string
      then [ KeyRedo ] else [])
  ++ (if (toLowerCase (key e) =? "r")%string then [ KeyReset ] else [])
  ++ (if (key e =? "Enter")%string
         && (mode present =? "draw")%string
         && (3 <=? length (draftShape present))%nat
      then [ KeyCloseDraft ] else []).

(** The grid input: [parsed] is [parseInt(e.target.value || '16', 10)]. *)
Definition onGridSizeInput (parsed : float) (s : EditorState) : EditorState :=
  {| tileW := tileW s; tileH := tileH s; tileMP := tileMP s;
     draftShape := draftShape s;
     mode := mode s; snap := snap s; gridSize := Math_max 2 parsed;
     instances := instances s |}.

(** The width and height inputs: [parsed] is
    [parseInt(e.target.value || '100', 10)]; the other dimension is the one
    of the render. *)
Definition onTileWidthInput {pc : PolygonClipping} (present : EditorState)
  (parsed : float) (s : EditorState) : Completion EditorState :=
  setTileSize (Math_max 40 parsed) (tileH present) s.

Definition onTileHeightInput {pc : PolygonClipping} (present : EditorState)
  (parsed : float) (s : EditorState) : Completion EditorState :=
  setTileSize (tileW present) (Math_max 40 parsed) s.

(** The shape of a multi-polygon: the number of points of each ring of
    each polygon. *)
Definition shapeOf (mp : MultiPolygon) : list (list nat) :=
  map (map (@length Point)) mp.

(** [cloneMP]: a deep copy by [JSON.parse(JSON.stringify(mp))], of
    whatever value it is given. *)
Definition cloneMP (mp : JsValue) : JsValue :=
  JSON_parse (JSON_stringify mp).

(** Every coordinate of the multi-polygon is finite and is not [-0]. *)
Definition safeCoordinates (mp : MultiPolygon) : bool :=
  forallb (forallb (forallb (fun p => json_safe_number (fst p)
                                      && json_safe_number (snd p)))) mp.

(** One undo/redo cycle: [n] undos, then [n] redos. *)
Definition hcycle (n : nat) : EditorHistory -> Outcome JsValue Json :=
  andThen (times n hundo) (times n hredo).

(** * Properties *)

(** ** Number facts *)

Section NumberFacts.
Local Open Scope float_scope.

(** Order facts, from the IEEE specification of the comparisons. *)

Lemma SFcompare_antisym (x y : spec_float) :
  SFcompare y x = option_map CompOpp (SFcompare x y).
Proof.
  destruct x as [[]|[]| |[] mx ex], y as [[]|[]| |[] my ey];
    simpl; try reflexivity.
  all: rewrite (Z.compare_antisym ex ey); destruct (ex ?= ey)%Z;
    simpl; try reflexivity.
  all: rewrite Pos.compare_cont_antisym; simpl;
    rewrite ?CompOpp_involutive; reflexivity.
Qed.

Lemma SFcompare_refl (x : spec_float) :
  x <> S754_nan -> SFcompare x x = Some Eq.
Proof.
  destruct x as [[]|[]| |[] m e]; simpl; try congruence; intros _.
  all: rewrite Z.compare_refl.
  all: fold (Pos.compare m m); rewrite Pos.compare_refl; reflexivity.
Qed.

Lemma leb_right_not_nan (x y : float) :
  (x <=? y) = true -> Prim2SF y <> S754_nan.
Proof.
  rewrite leb_spec. intros H E. rewrite E in H.
  destruct (Prim2SF x) as [[]|[]| |[] m e]; discriminate H.
Qed.

Lemma leb_ltb_false (x y : float) : (x <=? y) = true -> (y <? x) = false.
Proof.
  rewrite leb_spec, ltb_spec. unfold SFleb, SFltb.
  rewrite (SFcompare_antisym (Prim2SF x)).
  destruct (SFcompare (Prim2SF x) (Prim2SF y)) as [[]|]; simpl; congruence.
Qed.

Lemma leb_refl_right (x y : float) : (x <=? y) = true -> (y <=? y) = true.
Proof.
  intros H. apply leb_right_not_nan in H.
  rewrite leb_spec. unfold SFleb. now rewrite SFcompare_refl.
Qed.

Lemma leb_is_nan_right (x y : float) : (x <=? y) = true -> is_nan y = false.
Proof.
  intros H. apply leb_right_not_nan in H.
  unfold is_nan. rewrite eqb_spec. unfold SFeqb. now rewrite SFcompare_refl.
Qed.

(** The number model on a few inputs: ties round towards +infinity, a
    zero result keeps the sign of the argument, and [-0] is below [+0]. *)
Example Math_round_samples :
  map Math_round [ 2.5; -2.5; 1.4375; 3.5625; -0.25; 0.25; -0.5; 7 ]
  = [ 3; -2; 1; 4; -0; 0; -0; 7 ].
Proof. reflexivity. Qed.

Example Math_min_max_samples :
  [ Math_min 240 23; Math_max 0 23; Math_min 240 300; Math_max 0 (-5);
    Math_min 0 (-0); Math_max (-0) 0 ]
  = [ 23; 23; 240; 0; -0; 0 ].
Proof. reflexivity. Qed.

Example distance_sample : distance (0, 0) (3, 4) = 5.
Proof. reflexivity. Qed.

End NumberFacts.

(** ** The geometry kernel never throws *)

Section KernelFacts.
Context {pc : PolygonClipping}.

Lemma intersectWithBounds_normal mp w h out :
  pc_intersection mp (rectMultiPolygon w h) = Normal out ->
  intersectWithBounds mp w h = Normal out.
Proof.
  intros E. unfold intersectWithBounds. rewrite E. simpl.
  destruct out; reflexivity.
Qed.

Lemma intersectWithBounds_throw mp w h msg :
  pc_intersection mp (rectMultiPolygon w h) = Throw msg ->
  intersectWithBounds mp w h = Normal mp.
Proof.
  intros E. unfold intersectWithBounds. now rewrite E.
Qed.

Lemma intersectWithBounds_returns mp w h :
  returns (intersectWithBounds mp w h).
Proof.
  destruct (pc_intersection mp (rectMultiPolygon w h)) as [out|msg] eqn:E.
  - exists out. now apply intersectWithBounds_normal.
  - exists mp. now apply intersectWithBounds_throw with msg.
Qed.

Lemma try_clip_returns (c : Completion MultiPolygon) a w h :
  returns (try_catch (r <- c ;; intersectWithBounds r w h) (fun _ => ret a)).
Proof.
  destruct c as [r|msg]; simpl.
  - destruct (intersectWithBounds_returns r w h) as [out E].
    exists out. now rewrite E.
  - now exists a.
Qed.

Lemma mpUnion_returns a b w h : returns (mpUnion a b w h).
Proof. apply try_clip_returns. Qed.

Lemma mpDiff_returns a b w h : returns (mpDiff a b w h).
Proof. apply try_clip_returns. Qed.

Lemma mpIntersect_returns a b w h : returns (mpIntersect a b w h).
Proof. apply try_clip_returns. Qed.

(** C6.  Fail-soft kernel.  When the underlying boolean operation throws,
    the union, difference and intersection wrappers return their first
    operand [a]; clipping to the bounds returns the empty shape when the
    underlying intersection produces the empty shape, and its input when
    the underlying intersection throws; and none of the four ever throws:
    each returns a value for every input. *)
Theorem kernel_fail_soft :
  (forall a b w h msg,
      pc_union a b = Throw msg -> mpUnion a b w h = Normal a) /\
  (forall a b w h msg,
      pc_difference a b = Throw msg -> mpDiff a b w h = Normal a) /\
  (forall a b w h msg,
      pc_intersection a b = Throw msg -> mpIntersect a b w h = Normal a) /\
  (forall shape w h,
      pc_intersection shape (rectMultiPolygon w h) = Normal [] ->
      intersectWithBounds shape w h = Normal []) /\
  (forall shape w h msg,
      pc_intersection shape (rectMultiPolygon w h) = Throw msg ->
      intersectWithBounds shape w h = Normal shape) /\
  (forall a b w h,
      returns (mpUnion a b w h) /\ returns (mpDiff a b w h) /\
      returns (mpIntersect a b w h) /\ returns (intersectWithBounds a w h)).
Proof.
  repeat split.
  - intros a b w h msg E. unfold mpUnion. now rewrite E.
  - intros a b w h msg E. unfold mpDiff. now rewrite E.
  - intros a b w h msg E. unfold mpIntersect. now rewrite E.
  - intros shape w h E. now apply intersectWithBounds_normal.
  - intros shape w h msg E. now apply intersectWithBounds_throw with msg.
  - apply mpUnion_returns.
  - apply mpDiff_returns.
  - apply mpIntersect_returns.
  - apply intersectWithBounds_returns.
Qed.

End KernelFacts.

(** ** The tile mutation engine *)

Section TileFacts.
Context {pc : PolygonClipping}.

Lemma applyBoolean_short op s :
  (length (draftShape s) < 3)%nat -> applyBoolean op s = Normal s.
Proof.
  intros H. unfold applyBoolean.
  apply Nat.ltb_lt in H. now rewrite H.
Qed.

Lemma applyCutSlide_short direction s :
  (length (draftShape s) < 3)%nat -> applyCutSlide direction s = Normal s.
Proof.
  intros H. unfold applyCutSlide.
  apply Nat.ltb_lt in H. now rewrite H.
Qed.

(** With a usable draft, [applyBoolean] returns the state with a new tile
    and an empty draft; the new tile is the old one or what [mpUnion] or
    [mpDiff] returned. *)
Lemma applyBoolean_long op s :
  (3 <= length (draftShape s))%nat ->
  exists nextTile,
    applyBoolean op s = Normal (withTile s nextTile) /\
    let mp := simplePolygonToMP (closeIfNeeded (draftShape s)) in
    (nextTile = tileMP s \/
     mpUnion (tileMP s) mp (tileW s) (tileH s) = Normal nextTile \/
     mpDiff (tileMP s) mp (tileW s) (tileH s) = Normal nextTile).
Proof.
  intros H. unfold applyBoolean.
  apply Nat.ltb_ge in H. rewrite H. cbv zeta.
  set (mp := simplePolygonToMP (closeIfNeeded (draftShape s))).
  destruct (mpUnion_returns (tileMP s) mp (tileW s) (tileH s)) as [u Eu].
  destruct (mpDiff_returns (tileMP s) mp (tileW s) (tileH s)) as [d Ed].
  destruct (op =? "add")%string, (op =? "sub")%string;
    rewrite ?Eu, ?Ed; simpl; rewrite ?Ed; simpl; eauto.
Qed.

(** With a usable draft, [applyCutSlide] returns the state with a new tile
    and an empty draft; the new tile is what the final [mpUnion]
    returned. *)
Lemma applyCutSlide_long direction s :
  (3 <= length (draftShape s))%nat ->
  exists tmp moved nextTile,
    mpDiff (tileMP s) (simplePolygonToMP (closeIfNeeded (draftShape s)))
      (tileW s) (tileH s) = Normal tmp /\
    mpUnion tmp moved (tileW s) (tileH s) = Normal nextTile /\
    applyCutSlide direction s = Normal (withTile s nextTile).
Proof.
  intros H. unfold applyCutSlide.
  apply Nat.ltb_ge in H. rewrite H. cbv zeta.
  set (cut := simplePolygonToMP (closeIfNeeded (draftShape s))).
  destruct (mpDiff_returns (tileMP s) cut (tileW s) (tileH s)) as [tmp Et].
  rewrite Et. simpl.
  match goal with
  | |- context [mpUnion tmp ?m _ _] =>
      destruct (mpUnion_returns tmp m (tileW s) (tileH s)) as [u Eu];
      exists tmp, m, u
  end.
  rewrite Eu. auto.
Qed.

(** C7.  With fewer than three draft points, [applyBoolean] and
    [applyCutSlide] return the state they were given; with three or more,
    both return a state whose draft polygon is empty. *)
Theorem apply_needs_three_points op direction s :
  ((length (draftShape s) < 3)%nat ->
   applyBoolean op s = Normal s /\ applyCutSlide direction s = Normal s) /\
  ((3 <= length (draftShape s))%nat ->
   exists s1 s2,
     applyBoolean op s = Normal s1 /\ draftShape s1 = [] /\
     applyCutSlide direction s = Normal s2 /\ draftShape s2 = []).
Proof.
  split; intros H.
  - split; [now apply applyBoolean_short | now apply applyCutSlide_short].
  - destruct (applyBoolean_long op s H) as (t1 & E1 & _).
    destruct (applyCutSlide_long direction s H) as (tmp & moved & t2 & _ & _ & E2).
    exists (withTile s t1), (withTile s t2). auto.
Qed.

(** C10.  [applyBoolean] and [applyCutSlide] change nothing but the tile
    shape and the draft polygon: the tile size, mode, snap flag, grid size
    and instance list of the state returned are those of the state given,
    whatever the size of the draft. *)
Theorem apply_frame op direction s :
  exists s1 s2,
    applyBoolean op s = Normal s1 /\ sameFrame s s1 /\
    applyCutSlide direction s = Normal s2 /\ sameFrame s s2.
Proof.
  assert (F : sameFrame s s) by (repeat split).
  assert (G : forall t, sameFrame s (withTile s t)) by (intros; repeat split).
  destruct (Nat.lt_ge_cases (length (draftShape s)) 3) as [H|H].
  - exists s, s.
    rewrite applyBoolean_short, applyCutSlide_short by assumption. auto.
  - destruct (applyBoolean_long op s H) as (t1 & E1 & _).
    destruct (applyCutSlide_long direction s H) as (tmp & moved & t2 & _ & _ & E2).
    exists (withTile s t1), (withTile s t2). auto.
Qed.

(** The helpers of the source compute the kernel operations of the
    specification, and always return. *)
Lemma intersectWithBounds_spec mp w h :
  intersectWithBounds mp w h = Normal (Spec.clipToBounds mp w h).
Proof.
  unfold intersectWithBounds, Spec.clipToBounds, rectMultiPolygon.
  destruct (pc_intersection mp _) as [[|poly out]|msg]; reflexivity.
Qed.

Lemma mpUnion_spec a b w h :
  mpUnion a b w h = Normal (Spec.union a b w h).
Proof.
  unfold mpUnion, Spec.union.
  destruct (pc_union a b) as [u|msg]; simpl; [|reflexivity].
  now rewrite intersectWithBounds_spec.
Qed.

Lemma mpDiff_spec a b w h :
  mpDiff a b w h = Normal (Spec.difference a b w h).
Proof.
  unfold mpDiff, Spec.difference.
  destruct (pc_difference a b) as [d|msg]; simpl; [|reflexivity].
  now rewrite intersectWithBounds_spec.
Qed.

(** [translateMP] adds the offset to the two coordinates of every point. *)
Lemma translateMP_spec mp dx dy :
  translateMP mp dx dy = Spec.translate mp dx dy.
Proof.
  unfold translateMP, translatePoly, translateRing, Spec.translate.
  apply map_ext; intros poly. apply map_ext; intros ring.
  apply map_ext; intros [x y]. reflexivity.
Qed.


End TileFacts.


(** A two-point draft is ignored, a three-point draft is consumed. *)
Lemma apply_needs_three_points_witness :
  applyBoolean (pc := BoxClipper.instance) "add"
    (withDraft initial [ (0, 0); (16, 16) ]%float)
  = Normal (withDraft initial [ (0, 0); (16, 16) ]%float) /\
  exists s1 s2,
    applyBoolean (pc := BoxClipper.instance) "sub" notchState = Normal s1 /\
    draftShape s1 = [] /\
    applyCutSlide (pc := BoxClipper.instance) "LR" notchState = Normal s2 /\
    draftShape s2 = [].
Proof.
  split.
  - apply (apply_needs_three_points (pc := BoxClipper.instance) "add" "LR"
             (withDraft initial [ (0, 0); (16, 16) ]%float)).
    simpl; lia.
  - apply (apply_needs_three_points (pc := BoxClipper.instance) "sub" "LR"
             notchState).
    simpl; lia.
Defined.

(** ** Snapping a click to the grid *)

Section ClampFacts.
Local Open Scope float_scope.

Lemma is_neg_zero_spec (a : float) :
  is_neg_zero a = true -> Prim2SF a = S754_zero true.
Proof.
  unfold is_neg_zero. rewrite classify_spec.
  unfold SF64classify, SFclassify.
  destruct (Prim2SF a) as [[]|[]| |[] m e]; try discriminate; try reflexivity.
  all: destruct (Z.eqb _ _); discriminate.
Qed.

Lemma leb_left_not_nan (x y : float) :
  (x <=? y) = true -> Prim2SF x <> S754_nan.
Proof.
  rewrite leb_spec. intros H E. now rewrite E in H.
Qed.

Lemma leb_is_nan_left (x y : float) : (x <=? y) = true -> is_nan x = false.
Proof.
  intros H. apply leb_left_not_nan in H.
  unfold is_nan. rewrite eqb_spec. unfold SFeqb. now rewrite SFcompare_refl.
Qed.

(** A positive number at or below the upper bound is what
    [Math.min(bound, x)] returns. *)
Lemma Math_min_below (bound x : float) :
  (0 <? x) = true -> (x <=? bound) = true -> Math_min bound x = x.
Proof.
  intros Hpos Hle. unfold Math_min.
  rewrite (leb_is_nan_right Hle), (leb_is_nan_left Hle).
  rewrite (leb_ltb_false Hle). simpl.
  destruct (x <? bound); [reflexivity|].
  destruct (is_neg_zero bound) eqn:Z; [|reflexivity].
  exfalso. apply is_neg_zero_spec in Z.
  rewrite leb_spec, Z in Hle. rewrite ltb_spec in Hpos.
  change (Prim2SF 0) with (S754_zero false) in Hpos.
  destruct (Prim2SF x) as [[]|[]| |[] m e]; discriminate.
Qed.

End ClampFacts.

(** C4, as the code has it.  In draw mode with snapping on and a grid of
    16, a click at (23, 57) inside the tile is registered as the draft
    point (16, 64): 23/16 rounds to 1 and 57/16 rounds to 4. *)
Theorem click_23_57_snaps_to_16_64 (s : EditorState) :
  mode s = "draw"%string ->
  snap s = true ->
  gridSize s = 16%float ->
  (23 <=? tileW s)%float = true ->
  (57 <=? tileH s)%float = true ->
  exists updater,
    onEditorClick s (23, 57)%float = Some updater /\
    forall s', draftShape (updater s') = draftShape s' ++ [ (16, 64)%float ].
Proof.
  intros Hmode Hsnap Hgrid Hw Hh.
  unfold onEditorClick. rewrite Hmode, Hsnap, Hgrid. simpl negb. cbv iota.
  eexists. split; [reflexivity|].
  intros s'. cbn [draftShape fst snd].
  rewrite (@Math_min_below (tileW s) 23) by (assumption || reflexivity).
  rewrite (@Math_min_below (tileH s) 57) by (assumption || reflexivity).
  reflexivity.
Qed.

Lemma click_23_57_snaps_to_16_64_witness :
  exists updater,
    onEditorClick initial (23, 57)%float = Some updater /\
    forall s', draftShape (updater s') = draftShape s' ++ [ (16, 64)%float ].
Proof.
  apply (click_23_57_snaps_to_16_64 initial); reflexivity.
Defined.

(** C4, as the specification has it, fails: on the initial state the click
    at (23, 57) does not add the draft point (24, 56). *)
Lemma click_23_57_does_not_snap_to_24_56 :
  ~ (exists updater,
        onEditorClick initial (23, 57)%float = Some updater /\
        draftShape (updater initial) = draftShape initial ++ [ (24, 56)%float ]).
Proof.
  intros (updater & E & D).
  vm_compute in E. injection E as <-.
  vm_compute in D.
  apply (f_equal (fun l => match l with
                           | (a, _) :: _ => (a =? 24)%float
                           | [] => true
                           end)) in D.
  vm_compute in D. discriminate D.
Qed.

(** ** Containment of the tile shape *)

Lemma containedb_spec mp w h :
  containedb mp w h = true <-> contained mp w h.
Proof.
  unfold containedb, contained. rewrite forallb_forall. split.
  - intros H poly ring p Hpoly Hring Hp.
    specialize (H poly Hpoly). rewrite forallb_forall in H.
    specialize (H ring Hring). rewrite forallb_forall in H.
    exact (H p Hp).
  - intros H poly Hpoly. apply forallb_forall. intros ring Hring.
    apply forallb_forall. intros p Hp. exact (H poly ring p Hpoly Hring Hp).
Qed.

Lemma rectMultiPolygon_contained w h :
  (0 <=? w)%float = true -> (0 <=? h)%float = true ->
  contained (rectMultiPolygon w h) w h.
Proof.
  intros Hw Hh. apply containedb_spec.
  unfold containedb, rectMultiPolygon, withinBounds. cbn [forallb fst snd].
  rewrite Hw, Hh, (leb_refl_right Hw), (leb_refl_right Hh).
  reflexivity.
Qed.

Section ContainmentFacts.
Context {pc : PolygonClipping}.

(** What [intersectWithBounds] returns is what [pc.intersection] returned
    or, when [pc.intersection] threw, the shape it was given. *)
Lemma intersectWithBounds_outcome mp w h out :
  intersectWithBounds mp w h = Normal out ->
  pc_intersection mp (rectMultiPolygon w h) = Normal out \/
  (out = mp /\ exists msg, pc_intersection mp (rectMultiPolygon w h) = Throw msg).
Proof.
  destruct (pc_intersection mp (rectMultiPolygon w h)) as [r|msg] eqn:E.
  - rewrite (intersectWithBounds_normal _ _ _ E). intros [= <-]. now left.
  - rewrite (intersectWithBounds_throw _ _ _ E). intros [= <-].
    right. split; [reflexivity|now exists msg].
Qed.

(** The three origins of a tile shape: it lies in the rectangle, or
    [pc.intersection] returned it for the rectangle, or [pc.intersection]
    throws on it for the rectangle. *)
Local Abbreviation origin t w h :=
  (contained t w h \/
   (exists x, pc_intersection x (rectMultiPolygon w h) = Normal t) \/
   (exists msg, pc_intersection t (rectMultiPolygon w h) = Throw msg)).

Lemma try_clip_origin (c : Completion MultiPolygon) a w h out :
  origin a w h ->
  try_catch (r <- c ;; intersectWithBounds r w h) (fun _ => ret a)
  = Normal out ->
  origin out w h.
Proof.
  intros Oa. destruct c as [r|msg]; simpl.
  - destruct (intersectWithBounds_returns r w h) as [out' E].
    rewrite E. simpl. intros [= <-].
    destruct (intersectWithBounds_outcome _ _ _ E) as [N|[-> T]].
    + right. left. now exists r.
    + right. right. exact T.
  - now intros [= <-].
Qed.

Lemma mpUnion_origin a b w h out :
  origin a w h -> mpUnion a b w h = Normal out -> origin out w h.
Proof. apply try_clip_origin. Qed.

Lemma mpDiff_origin a b w h out :
  origin a w h -> mpDiff a b w h = Normal out -> origin out w h.
Proof. apply try_clip_origin. Qed.


End ContainmentFacts.

(** ** Clipping twice *)

Section ClipFacts.
Context {pc : PolygonClipping}.

(** X17.  Clipping a shape to the bounds and clipping the result again
    gives what clipping once gives exactly when [pc.intersection], handed
    its own result and the same rectangle, returns that result again or
    throws; when [pc.intersection] throws on the shape itself, clipping
    twice always gives what clipping once gives. *)
Theorem clip_twice_iff shape w h :
  (clipped <- intersectWithBounds shape w h ;;
   intersectWithBounds clipped w h)
  = intersectWithBounds shape w h
  <->
  (forall out out',
      pc_intersection shape (rectMultiPolygon w h) = Normal out ->
      pc_intersection out (rectMultiPolygon w h) = Normal out' ->
      out' = out).
Proof.
  split.
  - intros Idem out out' E E'.
    rewrite (intersectWithBounds_normal _ _ _ E) in Idem. simpl in Idem.
    rewrite (intersectWithBounds_normal _ _ _ E') in Idem.
    now injection Idem.
  - intros Hpc.
    destruct (pc_intersection shape (rectMultiPolygon w h)) as [out|msg] eqn:E.
    + rewrite (intersectWithBounds_normal _ _ _ E). simpl.
      destruct (pc_intersection out (rectMultiPolygon w h))
        as [out'|msg] eqn:E'.
      * rewrite (intersectWithBounds_normal _ _ _ E').
        now rewrite (Hpc out out' eq_refl E').
      * now rewrite (intersectWithBounds_throw _ _ _ E').
    + rewrite (intersectWithBounds_throw _ _ _ E). simpl.
      now rewrite (intersectWithBounds_throw _ _ _ E).
Qed.

End ClipFacts.

(** ** Examples on the stand-in clippers *)


(** One triangle inside the initial tile and one outside, clipped twice
    by the box clipper. *)
Lemma clip_twice_iff_witness :
  (clipped <- intersectWithBounds (pc := BoxClipper.instance)
                twoTriangles 240 160 ;;
   intersectWithBounds (pc := BoxClipper.instance) clipped 240 160)
  = intersectWithBounds (pc := BoxClipper.instance) twoTriangles 240 160.
Proof.
  apply (proj2 (@clip_twice_iff BoxClipper.instance twoTriangles 240 160)).
  intros out out' E E'.
  vm_compute in E. injection E as <-.
  vm_compute in E'. injection E' as <-.
  reflexivity.
Defined.


(** ** Undo and redo *)

Section HistoryFacts.
Variables State Snapshot : Type.
Variable stringify : State -> Snapshot.
Variable parse : Snapshot -> State.

Local Abbreviation History := (History State Snapshot).
Local Abbreviation set := (set stringify).
Local Abbreviation undo := (undo stringify parse).
Local Abbreviation redo := (redo stringify parse).
Local Abbreviation commits := (commits stringify).

Lemma pop_push {A} (stack : list A) (a : A) :
  pop (push stack a) = Some (stack, a).
Proof.
  unfold push. induction stack as [|b stack IH]; simpl.
  - reflexivity.
  - now rewrite IH.
Qed.

Lemma pop_nonempty {A} (stack : list A) :
  stack <> [] -> exists rest top, stack = push rest top.
Proof.
  intros H. destruct (exists_last H) as (rest & top & ->).
  now exists rest, top.
Qed.

Lemma push_length {A} (stack : list A) (a : A) :
  length (push stack a) = S (length stack).
Proof. unfold push. rewrite length_app. simpl. lia. Qed.

Lemma render_synced (p : State) (past future : list Snapshot) :
  synced (render Snapshot p past future).
Proof. reflexivity. Qed.

Lemma undo_push (p : State) (past future : list Snapshot) (prev : Snapshot) :
  undo (render Snapshot p (push past prev) future)
  = (render Snapshot (parse prev) past (push future (stringify p)), Normal tt).
Proof.
  unfold undo, render. cbn [pastRef futureRef present canUndo].
  rewrite push_length, pop_push. reflexivity.
Qed.

Lemma redo_push (p : State) (past future : list Snapshot) (next : Snapshot) :
  redo (render Snapshot p past (push future next))
  = (render Snapshot (parse next) (push past (stringify p)) future, Normal tt).
Proof.
  unfold redo, render. cbn [pastRef futureRef present canRedo].
  rewrite push_length, pop_push. reflexivity.
Qed.

Lemma undo_disabled (hist : History) :
  canUndo hist = false -> undo hist = (hist, Normal tt).
Proof. intros E. unfold undo. now rewrite E. Qed.

Lemma redo_disabled (hist : History) :
  canRedo hist = false -> redo hist = (hist, Normal tt).
Proof. intros E. unfold redo. now rewrite E. Qed.

Lemma times_disabled (handler : History -> Outcome State Snapshot)
  (hist : History) (n : nat) :
  handler hist = (hist, Normal tt) ->
  times n handler hist = (hist, Normal tt).
Proof.
  intros E. induction n as [|n IH]; simpl.
  - reflexivity.
  - unfold andThen. now rewrite E.
Qed.

(** One more call at the end of a sequence. *)
Lemma times_succ_r (handler : History -> Outcome State Snapshot) (n : nat) :
  forall hist,
    times (S n) handler hist = andThen (times n handler) handler hist.
Proof.
  induction n as [|n IH]; intros hist.
  - cbn [times]. unfold andThen.
    destruct (handler hist) as [h' [[]|msg]]; reflexivity.
  - change (times (S (S n)) handler hist)
      with (andThen handler (times (S n) handler) hist).
    unfold andThen.
    change (times (S n) handler hist)
      with (andThen handler (times n handler) hist).
    unfold andThen.
    destruct (handler hist) as [h' [[]|msg]]; [|reflexivity].
    rewrite IH. reflexivity.
Qed.

(** A commit leaves the future stack empty. *)
Lemma set_clears_future (updater : Updater State) (hist : History) :
  futureRef (set updater hist) = [].
Proof.
  unfold set, setPresent.
  destruct updater as [f|next]; [destruct (f (present hist))|destruct next];
    reflexivity.
Qed.

(** After a commit that changes the state, the flags are up to date. *)
Lemma set_new_synced (updater : Updater State) (hist : History) v :
  match updater with
  | UpdaterFn f => f (present hist)
  | UpdaterValue next => next
  end = NewObject v ->
  synced (set updater hist).
Proof.
  intros E. unfold set. rewrite E. apply render_synced.
Qed.

(** What [n] undos followed by [n] redos do to a hook whose flags are up
    to date and that has at least [n] past snapshots: no call throws, the
    flags are up to date again, the stacks keep their sizes, the future
    stack is the one before, and the present state is the one before,
    passed once through [stringify] and [parse] when [n] is not 0. *)
Lemma undo_redo_n (n : nat) : forall hist : History,
  synced hist ->
  (n <= length (pastRef hist))%nat ->
  exists hist',
    andThen (times n undo) (times n redo) hist = (hist', Normal tt) /\
    synced hist' /\
    futureRef hist' = futureRef hist /\
    length (pastRef hist') = length (pastRef hist) /\
    present hist' = match n with
                    | O => present hist
                    | S _ => parse (stringify (present hist))
                    end.
Proof.
  induction n as [|n IH]; intros hist Hsync Hn.
  - exists hist. unfold andThen. simpl. auto.
  - destruct hist as [p past future cu cr].
    unfold synced, render in Hsync. cbn in Hsync, Hn.
    injection Hsync as -> ->.
    assert (Hne : past <> []) by (destruct past; simpl in Hn; [lia|discriminate]).
    destruct (pop_nonempty Hne) as (rest & prev & ->).
    rewrite push_length in Hn.
    fold (render Snapshot p (push rest prev) future).
    cbn [pastRef futureRef present render].
    set (h1 := render Snapshot (parse prev) rest (push future (stringify p))).
    destruct (IH h1 (render_synced _ _ _)) as (h2 & Erun & Hs2 & F & L & P);
      [simpl; lia|].
    unfold andThen in Erun.
    destruct (times n undo h1) as [h1' [[]|msg]] eqn:Eundo;
      [|discriminate Erun].
    unfold h1 in F, L. cbn [pastRef futureRef render] in F, L.
    exists (render Snapshot (parse (stringify p))
              (push (pastRef h2) (stringify (present h2))) future).
    split; [|repeat split].
    + match goal with
      | |- andThen _ _ ?h = _ =>
          change h with (render Snapshot p (push rest prev) future)
      end.
      unfold andThen. cbn [times]. unfold andThen.
      rewrite undo_push. fold h1. rewrite Eundo.
      fold (andThen redo (times n redo) h1').
      change (andThen redo (times n redo) h1') with (times (S n) redo h1').
      rewrite times_succ_r. unfold andThen. rewrite Erun.
      rewrite Hs2, F. apply redo_push.
    + cbn [pastRef render]. rewrite !push_length. now rewrite L.
Qed.

(** A redo after an undo and a commit that changes the state does
    nothing. *)
Lemma redo_after_changing_commit (hist : History) (v : State) :
  let hist' := set (UpdaterValue (NewObject v)) (fst (undo hist)) in
  redo hist' = (hist', Normal tt).
Proof. intros hist'. now apply redo_disabled. Qed.

(** From a hook with an empty future stack and [canRedo] off, commits
    keep both so; [canUndo] goes on, for good, with the first commit that
    changes the state. *)
Lemma commits_invariant (us : list (Updater State)) : forall hist : History,
  futureRef hist = [] -> canRedo hist = false ->
  (canUndo hist = true -> pastRef hist <> []) ->
  let hist' := commits us hist in
  futureRef hist' = [] /\ canRedo hist' = false /\
  (canUndo hist' = true -> pastRef hist' <> []) /\
  length (pastRef hist') = (length (pastRef hist) + length us)%nat /\
  (canUndo hist' = false ->
   canUndo hist = false /\ present hist' = present hist).
Proof.
  induction us as [|u us IH]; intros hist F R U; cbv zeta.
  - simpl. rewrite Nat.add_0_r. repeat split; auto.
  - change (commits (u :: us) hist) with (commits us (set u hist)).
    assert (Hne : forall x : Snapshot, push (pastRef hist) x <> [])
      by (intros x E; apply (f_equal (@length _)) in E;
          rewrite push_length in E; discriminate E).
    assert (Hset :
              (set u hist
               = withRefs hist (push (pastRef hist) (stringify (present hist))) [])
              \/ exists v,
                  set u hist
                  = render Snapshot v
                      (push (pastRef hist) (stringify (present hist))) []).
    { unfold set, setPresent.
      destruct u as [f|next]; [destruct (f (present hist))|destruct next];
        eauto. }
    destruct (IH (set u hist)) as (F' & R' & U' & L' & P').
    + apply set_clears_future.
    + destruct Hset as [->|[v ->]]; simpl; auto.
    + intros _. destruct Hset as [->|[v ->]]; simpl; apply Hne.
    + repeat split; try assumption.
      * rewrite L'.
        destruct Hset as [->|[v ->]]; simpl; rewrite push_length; lia.
      * destruct (P' H) as [C _]. revert C.
        destruct Hset as [->|[v ->]]; simpl; [auto|].
        rewrite push_length. discriminate.
      * destruct (P' H) as [C ->]. revert C.
        destruct Hset as [->|[v ->]]; simpl; [auto|].
        rewrite push_length. discriminate.
Qed.

(** After any sequence of commits in a new hook, undoing them all and
    redoing them all throws nowhere and presents the state of the last
    commit, passed through [stringify] and [parse] if any commit changed
    the state. *)
Lemma undo_redo_commits (initialState : State) (us : list (Updater State)) :
  let n := length us in
  let committed := commits us (useHistory Snapshot initialState) in
  exists hist',
    andThen (times n undo) (times n redo) committed = (hist', Normal tt) /\
    (present hist' = present committed \/
     present hist' = parse (stringify (present committed))).
Proof.
  intros n committed.
  destruct (@commits_invariant us (useHistory Snapshot initialState))
    as (F & R & U & L & P); try reflexivity; [discriminate|].
  fold committed in F, R, U, L, P. simpl in L. fold n in L.
  destruct (canUndo committed) eqn:C.
  - assert (Hsync : synced committed).
    { specialize (U eq_refl). unfold synced, render.
      destruct committed as [p past future cu cr]. simpl in *. subst.
      destruct past; [contradiction|reflexivity]. }
    destruct (@undo_redo_n n committed Hsync) as (h' & E & _ & _ & _ & Hp);
      [lia|].
    exists h'. split; [exact E|]. rewrite Hp. destruct n; auto.
  - exists committed. split; [|auto]. unfold andThen.
    rewrite (@times_disabled undo committed n) by now apply undo_disabled.
    apply times_disabled. now apply redo_disabled.
Qed.

End HistoryFacts.

(** ** JSON round trips *)

Lemma JsValue_nested_ind (P : JsValue -> Prop) :
  P JsNull ->
  (forall b, P (JsBoolean b)) ->
  (forall n, P (JsNumber n)) ->
  (forall s, P (JsString s)) ->
  (forall items, Forall P items -> P (JsArray items)) ->
  (forall props, Forall (fun kv => P (snd kv)) props -> P (JsObject props)) ->
  forall v, P v.
Proof.
  intros Hnull Hbool Hnum Hstr Harr Hobj.
  fix IH 1. intros [ |b|n|s|items|props].
  - exact Hnull.
  - apply Hbool.
  - apply Hnum.
  - apply Hstr.
  - apply Harr. induction items as [|v items IHitems]; constructor.
    + apply IH.
    + exact IHitems.
  - apply Hobj. induction props as [|[k v] props IHprops]; constructor.
    + apply IH.
    + exact IHprops.
Qed.

Lemma stringify_number_safe n :
  json_safe_number n = true -> stringify_number n = JNum n.
Proof.
  unfold json_safe_number, stringify_number. intros H.
  apply andb_true_iff in H. destruct H as [F Z].
  apply negb_true_iff in Z. now rewrite F, Z.
Qed.

(** A value whose numbers are all finite and none of them [-0] is what
    parsing its serialisation gives back. *)
Lemma JSON_round_trip v :
  json_safe v = true -> JSON_parse (JSON_stringify v) = v.
Proof.
  induction v as [ |b|n|s|items IH|props IH] using JsValue_nested_ind;
    simpl; intros Hsafe; try reflexivity.
  - now rewrite stringify_number_safe.
  - f_equal. rewrite map_map.
    induction IH as [|v items Hv _ IHitems]; simpl in *.
    + reflexivity.
    + apply andb_true_iff in Hsafe. destruct Hsafe as [Sv Sitems].
      now rewrite Hv, IHitems.
  - f_equal. rewrite map_map.
    induction IH as [|[k v] props Hv _ IHprops]; simpl in *.
    + reflexivity.
    + apply andb_true_iff in Hsafe. destruct Hsafe as [Sv Sprops].
      now rewrite Hv, IHprops.
Qed.

(** Dragging a tile a little to the left of the origin with snapping on
    leaves its [x] at [-0]. *)
Lemma draggedState_x_is_neg_zero :
  map (fun i => is_neg_zero (x i)) (instances draggedState) = [ true ].
Proof. reflexivity. Qed.

(** C3, as the code has it.  After any sequence of commits in a new hook,
    as many undos followed by as many redos return without throwing and
    present the state of the last commit again, provided that state
    survives a JSON round trip: every number in it is finite and none is
    [-0]. *)
Theorem undo_redo_round_trip
  (initialState : JsValue) (updaters : list (Updater JsValue)) :
  let n := length updaters in
  let committed := hcommits updaters (useHistory Json initialState) in
  json_safe (present committed) = true ->
  exists hist',
    andThen (times n hundo) (times n hredo) committed = (hist', Normal tt) /\
    present hist' = present committed.
Proof.
  intros n committed Hsafe.
  destruct (undo_redo_commits JSON_stringify JSON_parse initialState updaters)
    as (hist' & E & [P|P]).
  - exists hist'. auto.
  - exists hist'. split; [exact E|].
    rewrite P. now apply JSON_round_trip.
Qed.

(** Three clicks in the initial editor and one apply in draw mode, which
    commits the state unchanged: undoing and redoing the four commits
    brings the last state back. *)
Lemma undo_redo_round_trip_witness :
  let updaters :=
    [ commitState (withDraft initial [ (0, 64) ]%float);
      commitState (withDraft initial [ (0, 64); (16, 48) ]%float);
      commitState notchState;
      commitUnchanged ] in
  let committed :=
    hcommits updaters (useHistory Json (EditorState_toJs initial)) in
  exists hist',
    andThen (times 4 hundo) (times 4 hredo) committed = (hist', Normal tt) /\
    present hist' = present committed.
Proof.
  apply (@undo_redo_round_trip (EditorState_toJs initial)
           [ commitState (withDraft initial [ (0, 64) ]%float);
             commitState (withDraft initial [ (0, 64); (16, 48) ]%float);
             commitState notchState;
             commitUnchanged ]).
  reflexivity.
Defined.

(** C3, as the specification has it, fails.  Add a tile and drag it to
    [x = -0]: after two undos and two redos the present state has [x = 0],
    which is not the same number.  Likewise a state whose grid size is NaN
    comes back with [null] for its grid size. *)
Lemma undo_redo_changes_unsafe_numbers :
  (let committed :=
     hcommits
       [ commitState (addInstance "k3x9" initial); commitState draggedState ]
       (useHistory Json (EditorState_toJs initial)) in
   present (fst (andThen (times 2 hundo) (times 2 hredo) committed))
   <> present committed) /\
  (let committed :=
     hcommits [ commitState nanGridState ]
       (useHistory Json (EditorState_toJs initial)) in
   present (fst (andThen (times 1 hundo) (times 1 hredo) committed))
   <> present committed).
Proof.
  split; intros committed E;
    apply (f_equal json_safe) in E; vm_compute in E; discriminate E.
Qed.

(** ** Redo after a commit that leaves the state as it is *)

(** C5.  Every commit leaves the future stack empty, and a redo after an
    undo and a commit that changes the state does nothing.  But after an
    undo and a commit whose updater returns the state it was given, no
    render has happened since the undo: [redo] still sees [canRedo] on,
    pops [undefined] from the empty future stack, pushes a snapshot on the
    past stack and throws. *)
Theorem redo_after_unchanged_commit_throws :
  (forall updater (hist : EditorHistory), futureRef (hset updater hist) = []) /\
  (forall (hist : EditorHistory) v,
      let hist' := hset (UpdaterValue (NewObject v)) (fst (hundo hist)) in
      hredo hist' = (hist', Normal tt)) /\
  let added :=
    hset (commitState (addInstance "k3x9" initial))
      (useHistory Json (EditorState_toJs initial)) in
  let undone := fst (hundo added) in
  let committed := hset commitUnchanged undone in
  futureRef committed = [] /\
  canRedo committed = true /\
  snd (hredo committed) = Throw "SyntaxError: undefined is not valid JSON" /\
  pastRef (fst (hredo committed))
  = push (pastRef committed) (JSON_stringify (present committed)).
Proof.
  split; [|split].
  - intros updater hist. apply set_clears_future.
  - intros hist v. apply redo_after_changing_commit.
  - repeat split.
Qed.

(** * Further properties *)

(** ** More number facts *)

Section OrderFacts.
Local Open Scope float_scope.

Lemma is_nan_false_spec (a : float) :
  is_nan a = false -> Prim2SF a <> S754_nan.
Proof.
  unfold is_nan. rewrite eqb_spec. unfold SFeqb. intros H E.
  rewrite E in H. discriminate H.
Qed.

Lemma SFcompare_defined (a b : spec_float) :
  a <> S754_nan -> b <> S754_nan -> exists c, SFcompare a b = Some c.
Proof.
  destruct a as [[]|[]| |[] ma ea], b as [[]|[]| |[] mb eb];
    simpl; intros Ha Hb; try congruence; eauto.
Qed.

Lemma ltb_leb (a b : float) : (a <? b) = true -> (a <=? b) = true.
Proof.
  rewrite ltb_spec, leb_spec. unfold SFltb, SFleb.
  destruct (SFcompare (Prim2SF a) (Prim2SF b)) as [[]|]; congruence.
Qed.

Lemma leb_refl_not_nan (a : float) : is_nan a = false -> (a <=? a) = true.
Proof.
  intros H. apply is_nan_false_spec in H.
  rewrite leb_spec. unfold SFleb. now rewrite SFcompare_refl.
Qed.

(** Two numbers, neither below the other, are at or below one another. *)
Lemma leb_of_not_ltb (a b : float) :
  is_nan a = false -> is_nan b = false ->
  (a <? b) = false -> (b <? a) = false ->
  (a <=? b) = true /\ (b <=? a) = true.
Proof.
  intros Ha Hb. apply is_nan_false_spec in Ha, Hb.
  rewrite !ltb_spec, !leb_spec. unfold SFltb, SFleb.
  rewrite (SFcompare_antisym (Prim2SF a) (Prim2SF b)).
  destruct (SFcompare_defined Ha Hb) as [c ->].
  destruct c; simpl; intros; try discriminate; auto.
Qed.

(** [Math.max(lo, n)] is NaN when [n] is, and at or above [lo]
    otherwise. *)
Lemma Math_max_lower_bound (lo n : float) :
  is_nan lo = false ->
  (is_nan n = true -> Math_max lo n = nan) /\
  (is_nan n = false ->
   (lo <=? Math_max lo n) = true /\ is_nan (Math_max lo n) = false).
Proof.
  intros Hlo. unfold Math_max. rewrite Hlo. split; intros Hn; rewrite Hn.
  - reflexivity.
  - simpl. destruct (lo <? n) eqn:L1.
    + split; [now apply ltb_leb | assumption].
    + destruct (n <? lo) eqn:L2.
      * split; [now apply leb_refl_not_nan | assumption].
      * destruct (is_neg_zero lo).
        -- split; [now apply leb_of_not_ltb | assumption].
        -- split; [now apply leb_refl_not_nan | assumption].
Qed.

(** [Math.max(0, Math.min(hi, v))] lies between 0 and [hi]. *)
Lemma clamp_within (hi v : float) :
  (0 <=? hi) = true -> is_nan v = false ->
  let c := Math_max 0 (Math_min hi v) in
  (0 <=? c) = true /\ (c <=? hi) = true.
Proof.
  intros Hhi Hv.
  assert (Hn : is_nan hi = false) by now apply leb_is_nan_right in Hhi.
  assert (Hm : is_nan (Math_min hi v) = false
               /\ (Math_min hi v <=? hi) = true).
  { unfold Math_min. rewrite Hn, Hv. simpl.
    destruct (hi <? v) eqn:L1; [split; [assumption|now apply leb_refl_not_nan]|].
    destruct (v <? hi) eqn:L2; [split; [assumption|now apply ltb_leb]|].
    destruct (is_neg_zero hi);
      [split; [assumption|now apply leb_refl_not_nan]|].
    split; [assumption|now apply leb_of_not_ltb]. }
  destruct Hm as [Hmn Hmle]. cbv zeta.
  set (m := Math_min hi v) in *.
  unfold Math_max. change (is_nan 0) with false. rewrite Hmn. simpl.
  destruct (0 <? m) eqn:L1; [split; [now apply ltb_leb|assumption]|].
  destruct (m <? 0) eqn:L2; [split; [reflexivity|assumption]|].
  change (is_neg_zero 0) with false. cbv iota.
  split; [reflexivity|assumption].
Qed.

(** A number minus itself is [0], or NaN when the number is not finite. *)
Lemma sub_self (a : float) : (a - a = 0 \/ a - a = nan)%float.
Proof.
  assert (H : Prim2SF (a - a) = S754_zero false
              \/ Prim2SF (a - a) = S754_nan).
  { rewrite sub_spec. unfold SF64sub, SFsub.
    destruct (Prim2SF a) as [[]|[]| |[] m e]; auto.
    all: left; cbv zeta; rewrite Z.sub_diag; reflexivity. }
  destruct H as [H|H]; [left|right]; apply Prim2SF_inj; rewrite H; reflexivity.
Qed.

End OrderFacts.

(** ** Rectangles and translations *)

(** X1.  The tile rectangle lies within its own bounds exactly when the
    width and the height are numbers at or above 0. *)
Theorem rectMultiPolygon_contained_iff (w h : float) :
  contained (rectMultiPolygon w h) w h
  <-> (0 <=? w)%float = true /\ (0 <=? h)%float = true.
Proof.
  split.
  - intros C.
    assert (H : withinBounds w h w h = true).
    { apply (C [ [ (0, 0); (w, 0); (w, h); (0, h) ] ]%float
               [ (0, 0); (w, 0); (w, h); (0, h) ]%float (w, h));
        simpl; auto. }
    unfold withinBounds in H.
    apply andb_true_iff in H. destruct H as [H _].
    apply andb_true_iff in H. destruct H as [H Hh].
    apply andb_true_iff in H. destruct H as [Hw _]. auto.
  - intros [Hw Hh]. now apply rectMultiPolygon_contained.
Qed.

(** X2.  A translation keeps the shape of a multi-polygon: as many
    polygons, as many rings in each, as many points in each ring. *)
Theorem translateMP_shapeOf (mp : MultiPolygon) (dx dy : float) :
  shapeOf (translateMP mp dx dy) = shapeOf mp.
Proof.
  unfold shapeOf, translateMP, translatePoly, translateRing.
  rewrite map_map. apply map_ext. intros poly.
  rewrite map_map. apply map_ext. intros ring.
  apply length_map.
Qed.

(** ** Closing a draft twice *)

Lemma distance_self (p : Point) :
  (close_tolerance <? distance p p)%float = false.
Proof.
  unfold distance.
  destruct (sub_self (fst p)) as [-> | ->], (sub_self (snd p)) as [-> | ->];
    reflexivity.
Qed.

Lemma last_snoc {A} (l : list A) (a d : A) : List.last (l ++ [a]) d = a.
Proof. apply last_last. Qed.

(** A ring of three or more points whose last point is its first is
    returned as it is. *)
Lemma closeIfNeeded_closed (first : Point) (rest : list Point) :
  closeIfNeeded ((first :: rest) ++ [first]) = (first :: rest) ++ [first].
Proof.
  unfold closeIfNeeded.
  destruct (length ((first :: rest) ++ [first]) <=? 2)%nat; [reflexivity|].
  cbn [app]. rewrite app_comm_cons, last_snoc.
  now rewrite distance_self.
Qed.




(** X3.  Closing is idempotent: a draft that went through
    [closeIfNeeded] is returned as it is by a second call, whatever its
    points, NaN and infinite coordinates included. *)
Theorem closeIfNeeded_idempotent (pts : list Point) :
  closeIfNeeded (closeIfNeeded pts) = closeIfNeeded pts.
Proof.
  destruct pts as [|first rest]; [reflexivity|].
  assert (H : closeIfNeeded (first :: rest) = first :: rest
              \/ closeIfNeeded (first :: rest) = (first :: rest) ++ [first]).
  { unfold closeIfNeeded.
    destruct (length (first :: rest) <=? 2)%nat; [now left|].
    destruct (close_tolerance
              <? distance first (List.last (first :: rest) first))%float;
      [now right|now left]. }
  destruct H as [H|H].
  - now rewrite !H.
  - rewrite H. apply closeIfNeeded_closed.
Qed.

(** X4.  The Enter key commits nothing outside draw mode or with fewer
    than three draft points; otherwise it appends the first draft point,
    and the draft it leaves is one that [closeIfNeeded] returns as it
    is. *)
Theorem onEnterKey_closes (present : EditorState) :
  (mode present <> "draw"%string \/ (length (draftShape present) < 3)%nat ->
   onEnterKey present = None) /\
  (mode present = "draw"%string -> (3 <= length (draftShape present))%nat ->
   exists updater first,
     onEnterKey present = Some updater /\
     hd_error (draftShape present) = Some first /\
     draftShape (updater present) = draftShape present ++ [first] /\
     closeIfNeeded (draftShape (updater present))
     = draftShape (updater present) /\
     sameFrame present (updater present) /\
     tileMP (updater present) = tileMP present).
Proof.
  unfold onEnterKey. split.
  - intros [Hm|Hl].
    + apply String.eqb_neq in Hm. now rewrite Hm.
    + apply Nat.leb_gt in Hl. rewrite Hl. now rewrite andb_false_r.
  - intros Hm Hl. rewrite Hm. apply Nat.leb_le in Hl. rewrite Hl. simpl.
    assert (E : exists first rest, draftShape present = first :: rest)
      by (destruct (draftShape present) as [|first rest];
          [discriminate Hl|eauto]).
    destruct E as (first & rest & E).
    eexists. exists first. split; [reflexivity|].
    cbv beta. rewrite E. cbn [hd_error draftShape].
    repeat split. apply closeIfNeeded_closed.
Qed.

Lemma onEnterKey_closes_witness :
  exists updater first,
    onEnterKey notchState = Some updater /\
    hd_error (draftShape notchState) = Some first /\
    draftShape (updater notchState) = draftShape notchState ++ [first] /\
    closeIfNeeded (draftShape (updater notchState))
    = draftShape (updater notchState) /\
    sameFrame notchState (updater notchState) /\
    tileMP (updater notchState) = tileMP notchState.
Proof.
  apply (proj2 (onEnterKey_closes notchState)).
  - reflexivity.
  - simpl; lia.
Defined.

(** ** Clicks and size inputs *)

(** X5.  In draw mode with snapping off, a click anywhere is registered
    as a draft point inside the tile rectangle, provided the tile width
    and height are at or above 0 and the click coordinates are not NaN. *)
Theorem onEditorClick_clamps (s : EditorState) (local : Point) :
  mode s = "draw"%string ->
  snap s = false ->
  (0 <=? tileW s)%float = true ->
  (0 <=? tileH s)%float = true ->
  is_nan (fst local) = false ->
  is_nan (snd local) = false ->
  exists updater p,
    onEditorClick s local = Some updater /\
    (forall s', draftShape (updater s') = draftShape s' ++ [p]) /\
    withinBounds (fst p) (snd p) (tileW s) (tileH s) = true.
Proof.
  intros Hmode Hsnap Hw Hh Hx Hy.
  unfold onEditorClick, snapPoint. rewrite Hmode, Hsnap. simpl negb. cbv iota.
  eexists. eexists. split; [reflexivity|]. split; [reflexivity|].
  cbn [fst snd]. unfold withinBounds.
  destruct (@clamp_within (tileW s) (fst local) Hw Hx) as [A B].
  destruct (@clamp_within (tileH s) (snd local) Hh Hy) as [C D].
  now rewrite A, B, C, D.
Qed.

(** A click far outside the initial tile, with snapping switched off. *)
Lemma onEditorClick_clamps_witness :
  let s := {| tileW := 240; tileH := 160;
              tileMP := rectMultiPolygon 240 160; draftShape := [];
              mode := "draw"; snap := false; gridSize := 16;
              instances := [] |} in
  exists updater p,
    onEditorClick s (500, -30)%float = Some updater /\
    (forall s', draftShape (updater s') = draftShape s' ++ [p]) /\
    withinBounds (fst p) (snd p) (tileW s) (tileH s) = true.
Proof.
  apply (@onEditorClick_clamps
           {| tileW := 240; tileH := 160;
              tileMP := rectMultiPolygon 240 160; draftShape := [];
              mode := "draw"; snap := false; gridSize := 16;
              instances := [] |} (500, -30)%float); reflexivity.
Defined.

Section InputFacts.
Context {pc : PolygonClipping}.

(** X6.  The size inputs keep their minimum unless the parsed number is
    NaN: the grid size becomes NaN or at least 2, and the tile width or
    height becomes NaN or at least 40, while the other dimension and
    everything but the tile size and shape stay as they are. *)
Theorem size_inputs_keep_minimum
  (present s : EditorState) (parsed : float) :
  (is_nan parsed = true ->
   gridSize (onGridSizeInput parsed s) = nan /\
   exists sw sh,
     onTileWidthInput present parsed s = Normal sw /\ tileW sw = nan /\
     onTileHeightInput present parsed s = Normal sh /\ tileH sh = nan) /\
  (is_nan parsed = false ->
   (2 <=? gridSize (onGridSizeInput parsed s))%float = true /\
   exists sw sh,
     onTileWidthInput present parsed s = Normal sw /\
     (40 <=? tileW sw)%float = true /\ tileH sw = tileH present /\
     draftShape sw = draftShape s /\
     onTileHeightInput present parsed s = Normal sh /\
     (40 <=? tileH sh)%float = true /\ tileW sh = tileW present /\
     draftShape sh = draftShape s).
Proof.
  destruct (@Math_max_lower_bound 2 parsed eq_refl) as [G1 G2].
  destruct (@Math_max_lower_bound 40 parsed eq_refl) as [T1 T2].
  unfold onTileWidthInput, onTileHeightInput, setTileSize.
  destruct (intersectWithBounds_returns (tileMP s)
              (Math_max 40 parsed) (tileH present)) as [cw Ew].
  destruct (intersectWithBounds_returns (tileMP s)
              (tileW present) (Math_max 40 parsed)) as [ch Eh].
  rewrite Ew, Eh. simpl.
  split; intros Hn.
  - split; [exact (G1 Hn)|]. do 2 eexists.
    split; [reflexivity|]. split; [exact (T1 Hn)|].
    split; [reflexivity|]. exact (T1 Hn).
  - split; [exact (proj1 (G2 Hn))|]. do 2 eexists.
    split; [reflexivity|]. split; [exact (proj1 (T2 Hn))|].
    split; [reflexivity|]. split; [reflexivity|].
    split; [reflexivity|]. split; [exact (proj1 (T2 Hn))|].
    split; reflexivity.
Qed.

End InputFacts.

(** A parsed grid size of 1 is raised to 2, a parsed width of 10 to 40. *)
Lemma size_inputs_keep_minimum_witness :
  (2 <=? gridSize (onGridSizeInput 1 initial))%float = true /\
  exists sw sh,
    onTileWidthInput (pc := BoxClipper.instance) initial 10 initial
    = Normal sw /\
    (40 <=? tileW sw)%float = true /\ tileH sw = tileH initial /\
    draftShape sw = draftShape initial /\
    onTileHeightInput (pc := BoxClipper.instance) initial 10 initial
    = Normal sh /\
    (40 <=? tileH sh)%float = true /\ tileW sh = tileW initial /\
    draftShape sh = draftShape initial.
Proof.
  apply (proj2 (@size_inputs_keep_minimum BoxClipper.instance
                  initial initial 1%float)).
  reflexivity.
Defined.

(** ** Dragging a placed tile *)

(** X7.  A drag step changes nothing but the position of the instances
    that carry the dragged id: the instance list keeps its length, its ids
    and its rotations, every other instance stays at its place in the
    list, all dragged instances land on one position, and the rest of the
    state is as before.  With no instance of that id the state returned is
    the state given. *)
Theorem onAssemblyMouseMove_frame
  (dragId : string) (off local : Point) (s : EditorState) :
  let s' := onAssemblyMouseMove dragId off local s in
  map id (instances s') = map id (instances s) /\
  map rot (instances s') = map rot (instances s) /\
  (forall k i, nth_error (instances s) k = Some i -> id i <> dragId ->
               nth_error (instances s') k = Some i) /\
  (forall i j, In i (instances s') -> In j (instances s') ->
               id i = dragId -> id j = dragId -> x i = x j /\ y i = y j) /\
  (tileW s' = tileW s /\ tileH s' = tileH s /\ tileMP s' = tileMP s /\
   draftShape s' = draftShape s /\ mode s' = mode s /\ snap s' = snap s /\
   gridSize s' = gridSize s) /\
  ((forall i, In i (instances s) -> id i <> dragId) -> s' = s).
Proof.
  cbv zeta. unfold onAssemblyMouseMove.
  cbn [instances tileW tileH tileMP draftShape mode snap gridSize].
  set (move := fun i : Instance => _).
  assert (Hother : forall i, id i <> dragId -> move i = i).
  { intros i Hi. unfold move. apply String.eqb_neq in Hi. now rewrite Hi. }
  assert (Hid : forall i, id (move i) = id i /\ rot (move i) = rot i).
  { intros i. unfold move. destruct (id i =? dragId)%string; auto. }
  split; [rewrite map_map; apply map_ext; intros i; apply Hid|].
  split; [rewrite map_map; apply map_ext; intros i; apply Hid|].
  split.
  { intros k i Hk Hi. rewrite nth_error_map, Hk. simpl. now rewrite Hother. }
  split.
  { intros i j Hi Hj Ei Ej.
    apply in_map_iff in Hi. destruct Hi as (i0 & <- & _).
    apply in_map_iff in Hj. destruct Hj as (j0 & <- & _).
    rewrite (proj1 (Hid i0)) in Ei. rewrite (proj1 (Hid j0)) in Ej.
    apply String.eqb_eq in Ei, Ej. unfold move. now rewrite Ei, Ej. }
  split; [repeat split|].
  intros Hnone. destruct s as [w h mp d m sn g insts]. simpl in *.
  f_equal. rewrite <- (map_id insts) at 2. apply map_ext_in.
  intros i Hi. apply Hother. now apply Hnone.
Qed.

(** ** The Apply button and the Reset button *)

(** X8.  What the Apply button issues, mode by mode: union with the
    draft in [booleanAdd], difference in [booleanSub], a cut and slide to
    the right, to the left, downwards and upwards in [cutSlideLR],
    [cutSlideRL], [cutSlideTB] and [cutSlideBT], and nothing else in any
    mode; in select mode, draw mode and under any other mode string it
    does nothing. *)
Theorem applyModeAction_issues (mode : string) (o : TileOp) :
  (applyModeAction mode = Some o <->
   In (mode, o)
     [ ("booleanAdd", OpApplyBoolean "add");
       ("booleanSub", OpApplyBoolean "sub");
       ("cutSlideLR", OpApplyCutSlide "LR");
       ("cutSlideRL", OpApplyCutSlide "RL");
       ("cutSlideTB", OpApplyCutSlide "TB");
       ("cutSlideBT", OpApplyCutSlide "BT") ]%string) /\
  (applyModeAction mode = None <->
   ~ In mode [ "booleanAdd"; "booleanSub"; "cutSlideLR"; "cutSlideRL";
               "cutSlideTB"; "cutSlideBT" ]%string).
Proof.
  assert (P : forall (m1 m2 : string) (o1 o2 : TileOp),
             (m1, o1) = (m2, o2) -> m1 = m2 /\ o1 = o2)
    by (intros m1 m2 o1 o2 [= -> ->]; auto).
  unfold applyModeAction.
  repeat match goal with
         | |- context [String.eqb mode ?m] =>
             destruct (String.eqb_spec mode m);
             [ subst mode; split; split;
               [ intros [= <-]; simpl; auto 8
               | simpl; intros H;
                 repeat (destruct H as [H|H];
                         [ apply P in H; destruct H as [Hm Ho];
                           first [ discriminate Hm | now rewrite Ho ] | ]);
                 contradiction
               | discriminate
               | simpl; intros H; exfalso; apply H; auto 8 ]
             | ]
         end.
  split; split.
  - discriminate.
  - simpl. intros H.
    repeat (destruct H as [H|H];
            [ apply P in H; destruct H as [Hm _]; congruence | ]).
    contradiction.
  - intros _. simpl. intuition congruence.
  - reflexivity.
Qed.

Section BooleanFacts.
Context {pc : PolygonClipping}.


End BooleanFacts.


Section ResetFacts.
Context {pc : PolygonClipping}.

(** X9.  Resetting the tile discards whatever [applyBoolean] or
    [applyCutSlide] did: after either, [resetTile] gives the state that
    [resetTile] gives before it; and resetting twice is resetting once. *)
Theorem resetTile_discards (op direction : string) (s : EditorState) :
  (forall s', applyBoolean op s = Normal s' -> resetTile s' = resetTile s) /\
  (forall s', applyCutSlide direction s = Normal s' ->
              resetTile s' = resetTile s) /\
  resetTile (resetTile s) = resetTile s.
Proof.
  destruct (Nat.lt_ge_cases (length (draftShape s)) 3) as [H|H].
  - rewrite applyBoolean_short, applyCutSlide_short by assumption.
    repeat split; intros s' [= <-]; reflexivity.
  - destruct (applyBoolean_long op s H) as (t1 & -> & _).
    destruct (applyCutSlide_long direction s H)
      as (tmp & moved & t2 & _ & _ & ->).
    repeat split; intros s' [= <-]; reflexivity.
Qed.

End ResetFacts.

(** ** Keyboard shortcuts *)

(** X10.  One key event makes the key handler call at most one of undo,
    redo, reset and closing the draft; it closes the draft exactly when
    the key is Enter and [onEnterKey] commits; and it calls undo or redo
    only with Ctrl or Meta held. *)
Theorem onKey_at_most_one (present : EditorState) (e : KeyEvent) :
  (length (onKey present e) <= 1)%nat /\
  (In KeyCloseDraft (onKey present e)
   <-> key e = "Enter"%string /\ onEnterKey present <> None) /\
  (In KeyUndo (onKey present e) \/ In KeyRedo (onKey present e) ->
   ctrlKey e || metaKey e = true).
Proof.
  unfold onKey.
  destruct (String.eqb_spec (key e) "Enter") as [E|E].
  - unfold onEnterKey. rewrite E.
    change (toLowerCase "Enter") with "enter"%string.
    change ("enter" =? "z")%string with false.
    change ("enter" =? "y")%string with false.
    change ("enter" =? "r")%string with false.
    rewrite !andb_false_r. cbn [app andb].
    destruct ((mode present =? "draw")%string
              && (3 <=? length (draftShape present))%nat); simpl.
    + split; [lia|]. split.
      * split; [intros _; split; [reflexivity|discriminate]|auto].
      * intros [[H|[]]|[H|[]]]; discriminate H.
    + split; [lia|]. split.
      * split; [intros []|intros [_ H]; now contradiction H].
      * intros [[]|[]].
  - cbn [andb]. rewrite app_nil_r.
    assert (Hno : forall l, ~ In KeyCloseDraft l ->
                            (In KeyCloseDraft l <->
                             key e = "Enter"%string /\
                             onEnterKey present <> None))
      by (intros l Hl; split;
          [intros H; contradiction|intros [H _]; contradiction]).
    destruct (ctrlKey e || metaKey e) eqn:M; cbn [andb].
    + destruct (String.eqb_spec (toLowerCase (key e)) "z") as [Z|Z].
      * rewrite Z. simpl. split; [lia|]. split; [|reflexivity].
        apply (Hno [ if shiftKey e then KeyRedo else KeyUndo ]).
        destruct (shiftKey e); intros [H|[]]; discriminate H.
      * destruct (String.eqb_spec (toLowerCase (key e)) "y") as [Y|Y].
        -- rewrite Y. simpl. split; [lia|]. split; [|reflexivity].
           apply (Hno [ KeyRedo ]). intros [H|[]]; discriminate H.
        -- destruct (toLowerCase (key e) =? "r")%string; simpl;
             (split; [lia|]); (split; [|reflexivity]).
           ++ apply (Hno [ KeyReset ]). intros [H|[]]; discriminate H.
           ++ apply (Hno []). intros [].
    + simpl. destruct (toLowerCase (key e) =? "r")%string; simpl;
        (split; [lia|]); split.
      * apply (Hno [ KeyReset ]). intros [H|[]]; discriminate H.
      * intros [[H|[]]|[H|[]]]; discriminate H.
      * apply (Hno []). intros [].
      * intros [[]|[]].
Qed.

(** ** More on undo and redo *)

Section HistoryMoreFacts.
Variables State Snapshot : Type.
Variable stringify : State -> Snapshot.
Variable parse : Snapshot -> State.

Local Abbreviation History := (History State Snapshot).
Local Abbreviation set := (set stringify).
Local Abbreviation undo := (undo stringify parse).
Local Abbreviation redo := (redo stringify parse).
Local Abbreviation commits := (commits stringify).

Lemma set_past (updater : Updater State) (hist : History) :
  pastRef (set updater hist)
  = push (pastRef hist) (stringify (present hist)).
Proof.
  unfold set, setPresent.
  destruct updater as [f|next]; [destruct (f (present hist))|destruct next];
    reflexivity.
Qed.

(** X11.  Every commit, one that leaves the state as it is included, puts
    exactly one snapshot on the past stack: after a sequence of commits
    the stack has grown by their number, and its new top is the snapshot
    of the state before the last commit. *)
Theorem commits_grow_past (updaters : list (Updater State)) (hist : History) :
  length (pastRef (commits updaters hist))
  = (length (pastRef hist) + length updaters)%nat /\
  forall u, pop (pastRef (commits (updaters ++ [u]) hist))
            = Some (pastRef (commits updaters hist),
                    stringify (present (commits updaters hist))).
Proof.
  split.
  - revert hist. induction updaters as [|u us IH]; intros hist.
    + simpl. lia.
    + change (commits (u :: us) hist) with (commits us (set u hist)).
      rewrite IH, set_past, push_length. simpl. lia.
  - intros u. unfold commits. rewrite fold_left_app. simpl.
    rewrite set_past. apply pop_push.
Qed.

(** X12.  Undo right after a commit that changed the state presents the
    parsed snapshot of the state before the commit, gives the past stack
    back as it was, and leaves the undone state as the one snapshot to
    redo, whatever the flags said before the commit. *)
Theorem undo_after_commit (f : State -> Next State) (hist : History) v :
  f (present hist) = NewObject v ->
  undo (set (UpdaterFn f) hist)
  = (render Snapshot (parse (stringify (present hist))) (pastRef hist)
       [ stringify v ],
     Normal tt).
Proof.
  intros E. unfold set. rewrite E. unfold setPresent.
  rewrite undo_push. reflexivity.
Qed.

Lemma undo_redo_conserve_render (p : State) (past future : list Snapshot) :
  let hist := render Snapshot p past future in
  (exists hist',
      undo hist = (hist', Normal tt) /\ synced hist' /\
      (length (pastRef hist') + length (futureRef hist')
       = length (pastRef hist) + length (futureRef hist))%nat) /\
  (exists hist',
      redo hist = (hist', Normal tt) /\ synced hist' /\
      (length (pastRef hist') + length (futureRef hist')
       = length (pastRef hist) + length (futureRef hist))%nat).
Proof.
  cbv zeta. split.
  - destruct past as [|s0 past0].
    + exists (render Snapshot p [] future). repeat split.
    + destruct (@pop_nonempty _ (s0 :: past0)) as (rest & prev & ->);
        [discriminate|].
      rewrite undo_push. eexists. split; [reflexivity|].
      split; [apply render_synced|].
      cbn [pastRef futureRef render]. rewrite !push_length. lia.
  - destruct future as [|s0 future0].
    + exists (render Snapshot p past []). repeat split.
    + destruct (@pop_nonempty _ (s0 :: future0)) as (rest & next & ->);
        [discriminate|].
      rewrite redo_push. eexists. split; [reflexivity|].
      split; [apply render_synced|].
      cbn [pastRef futureRef render]. rewrite !push_length. lia.
Qed.

(** X13.  With flags that are up to date, undo and redo never throw,
    leave the flags up to date, and only move snapshots between the two
    stacks: the two stack sizes add up to what they did before. *)
Theorem undo_redo_conserve (hist : History) :
  synced hist ->
  (exists hist',
      undo hist = (hist', Normal tt) /\ synced hist' /\
      (length (pastRef hist') + length (futureRef hist')
       = length (pastRef hist) + length (futureRef hist))%nat) /\
  (exists hist',
      redo hist = (hist', Normal tt) /\ synced hist' /\
      (length (pastRef hist') + length (futureRef hist')
       = length (pastRef hist) + length (futureRef hist))%nat).
Proof.
  intros Hsync. destruct hist as [p past future cu cr].
  unfold synced, render in Hsync. cbn in Hsync. injection Hsync as -> ->.
  exact (undo_redo_conserve_render p past future).
Qed.

(** X14.  After a reset nothing is left to undo or redo: any number of
    undos or redos returns the hook as the reset left it, presenting the
    state it was given. *)
Theorem reset_clears_history (state : State) (hist : History) (n : nat) :
  times n undo (reset state hist) = (reset state hist, Normal tt) /\
  times n redo (reset state hist) = (reset state hist, Normal tt) /\
  present (reset state hist) = state /\
  pastRef (reset state hist) = [] /\ futureRef (reset state hist) = [].
Proof.
  repeat split.
  - apply times_disabled. now apply undo_disabled.
  - apply times_disabled. now apply redo_disabled.
Qed.

End HistoryMoreFacts.

(** A commit on a hook that has a snapshot to redo. *)
Lemma undo_after_commit_witness :
  hundo (hset (commitState notchState)
           (render Json (EditorState_toJs initial) []
              [ JSON_stringify (EditorState_toJs draggedState) ]))
  = (render Json
       (JSON_parse (JSON_stringify (EditorState_toJs initial))) []
       [ JSON_stringify (EditorState_toJs notchState) ],
     Normal tt).
Proof.
  apply (@undo_after_commit JsValue Json JSON_stringify JSON_parse
           (fun _ => NewObject (EditorState_toJs notchState))
           (render Json (EditorState_toJs initial) []
              [ JSON_stringify (EditorState_toJs draggedState) ])
           (EditorState_toJs notchState)).
  reflexivity.
Defined.

Lemma undo_redo_conserve_witness :
  exists hist',
    hundo (hcommits [ commitState notchState ]
             (useHistory Json (EditorState_toJs initial)))
    = (hist', Normal tt) /\ synced hist' /\
    (length (pastRef hist') + length (futureRef hist') = 1 + 0)%nat.
Proof.
  apply (@undo_redo_conserve JsValue Json JSON_stringify JSON_parse
           (hcommits [ commitState notchState ]
              (useHistory Json (EditorState_toJs initial)))).
  reflexivity.
Defined.

(** ** JSON round trips, again *)

Lemma stringify_number_round_trip_safe n :
  json_safe (JSON_parse (stringify_number n)) = true.
Proof.
  unfold stringify_number.
  destruct (is_finite n) eqn:F; [|reflexivity].
  destruct (is_neg_zero n) eqn:Z; [reflexivity|].
  simpl. unfold json_safe_number. now rewrite F, Z.
Qed.

(** Whatever a value holds, what parsing its serialisation gives has
    only finite numbers other than [-0]; so a second round trip changes
    nothing. *)
Lemma JSON_round_trip_twice (v : JsValue) :
  json_safe (JSON_parse (JSON_stringify v)) = true /\
  JSON_parse (JSON_stringify (JSON_parse (JSON_stringify v)))
  = JSON_parse (JSON_stringify v).
Proof.
  assert (S : json_safe (JSON_parse (JSON_stringify v)) = true).
  { induction v as [ |b|n|s|items IH|props IH] using JsValue_nested_ind;
      simpl; try reflexivity.
    - apply stringify_number_round_trip_safe.
    - rewrite map_map. apply forallb_forall. intros w Hw.
      apply in_map_iff in Hw. destruct Hw as (u & <- & Hu).
      rewrite Forall_forall in IH. now apply IH.
    - rewrite !map_map. apply forallb_forall. intros kv Hkv.
      apply in_map_iff in Hkv. destruct Hkv as (u & <- & Hu).
      rewrite Forall_forall in IH. simpl. now apply IH. }
  split; [exact S|]. now apply JSON_round_trip.
Qed.

Lemma MultiPolygon_toJs_safe (mp : MultiPolygon) :
  safeCoordinates mp = true -> json_safe (MultiPolygon_toJs mp) = true.
Proof.
  unfold safeCoordinates, MultiPolygon_toJs, Polygon_toJs, Ring_toJs,
    Point_toJs.
  intros H. simpl. apply forallb_forall. intros v Hv.
  apply in_map_iff in Hv. destruct Hv as (poly & <- & Hpoly).
  rewrite forallb_forall in H. specialize (H poly Hpoly).
  simpl. apply forallb_forall. intros v Hv.
  apply in_map_iff in Hv. destruct Hv as (ring & <- & Hring).
  rewrite forallb_forall in H. specialize (H ring Hring).
  simpl. apply forallb_forall. intros v Hv.
  apply in_map_iff in Hv. destruct Hv as (pt & <- & Hpt).
  rewrite forallb_forall in H. specialize (H pt Hpt).
  simpl. now rewrite andb_true_r.
Qed.

(** X15.  [cloneMP] copies a multi-polygon exactly when all its
    coordinates are finite and none is [-0]; on any value at all, its
    result holds only such numbers, and cloning the clone gives the clone
    again. *)
Theorem cloneMP_copies (v : JsValue) (mp : MultiPolygon) :
  (safeCoordinates mp = true ->
   cloneMP (MultiPolygon_toJs mp) = MultiPolygon_toJs mp) /\
  json_safe (cloneMP v) = true /\
  cloneMP (cloneMP v) = cloneMP v.
Proof.
  split.
  - intros H. apply JSON_round_trip. now apply MultiPolygon_toJs_safe.
  - apply JSON_round_trip_twice.
Qed.

(** The initial tile is copied exactly. *)
Lemma cloneMP_copies_witness :
  cloneMP (MultiPolygon_toJs (rectMultiPolygon 240 160))
  = MultiPolygon_toJs (rectMultiPolygon 240 160).
Proof.
  apply (proj1 (cloneMP_copies JsNull (rectMultiPolygon 240 160))).
  reflexivity.
Defined.

(** X16.  In a hook whose flags are up to date, [n] undos followed by [n]
    redos, with [n] snapshots to undo, throw nowhere, leave the future
    stack as it was and present the JSON round trip of the present state;
    a second such cycle presents the same state again. *)
Theorem undo_redo_cycle_stable (hist : EditorHistory) (n : nat) :
  synced hist ->
  (n <= length (pastRef hist))%nat ->
  exists hist1 hist2,
    hcycle n hist = (hist1, Normal tt) /\
    hcycle n hist1 = (hist2, Normal tt) /\
    futureRef hist1 = futureRef hist /\
    futureRef hist2 = futureRef hist /\
    (json_safe (present hist) = true -> present hist1 = present hist) /\
    present hist2 = present hist1.
Proof.
  intros Hsync Hn. unfold hcycle, hundo, hredo.
  destruct (@undo_redo_n _ _ JSON_stringify JSON_parse n hist Hsync Hn)
    as (h1 & E1 & S1 & F1 & L1 & P1).
  assert (Hn1 : (n <= length (pastRef h1))%nat) by lia.
  destruct (@undo_redo_n _ _ JSON_stringify JSON_parse n h1 S1 Hn1)
    as (h2 & E2 & S2 & F2 & L2 & P2).
  exists h1, h2. repeat split; try assumption.
  - congruence.
  - intros Hsafe. rewrite P1. destruct n; [reflexivity|].
    now apply JSON_round_trip.
  - rewrite P2. destruct n; [reflexivity|].
    rewrite P1. apply JSON_round_trip_twice.
Qed.

(** Two commits, then two cycles of two undos and two redos. *)
Lemma undo_redo_cycle_stable_witness :
  let hist :=
    hcommits [ commitState (addInstance "k3x9" initial);
               commitState draggedState ]
      (useHistory Json (EditorState_toJs initial)) in
  exists hist1 hist2,
    hcycle 2 hist = (hist1, Normal tt) /\
    hcycle 2 hist1 = (hist2, Normal tt) /\
    futureRef hist1 = futureRef hist /\
    futureRef hist2 = futureRef hist /\
    (json_safe (present hist) = true -> present hist1 = present hist) /\
    present hist2 = present hist1.
Proof.
  apply (@undo_redo_cycle_stable
           (hcommits [ commitState (addInstance "k3x9" initial);
                       commitState draggedState ]
              (useHistory Json (EditorState_toJs initial))) 2).
  - reflexivity.
  - simpl; lia.
Defined.
